(** * The multi-provider model-query router of llm-council

    A shallow embedding of [backend/providers/__init__.py],
    [backend/providers/openrouter.py], [backend/providers/ollama.py] and the
    part of [backend/config.py] they read, followed by the properties of the
    router proved about it.

    Conventions of the embedding.
    - A Python [str] is a [string]; [s.startswith(p)] is [startswith s p] and
      the slice [s[n:]] is [slice_from n s].
    - A Python exception is a value of [exn]; code that may raise returns a
      [result].  Code that also reads or writes module state or talks to a
      backend lives in the monad [M], a state monad over [World] that carries
      a [result]: a raised exception keeps the state reached so far.
    - [dict]s whose iteration order the code relies on ([provider_groups]) are
      association lists in insertion order; the other [dict]s are [gmap]s.
      A [dict] value that may be [None] is an [option].
    - The HTTP backends are an oracle [Backend]: the answer to the [n]-th
      request issued by the process, as a function of [n] and of the request.
      [asyncio.gather] is run in task order; since the oracle is arbitrary,
      every completion order of the concurrent requests is covered. *)

From Stdlib Require Import ZArith Ascii.
From stdpp Require Import gmap strings list fin_maps.

Local Set Warnings "-register-all,-clear-no-such-hyp".
Local Open Scope Z_scope.
Local Open Scope nat_scope.

(** ** Python strings *)

(** [s.startswith(prefix)] *)
Fixpoint startswith (s prefix : string) {struct prefix} : bool :=
  match prefix with
  | EmptyString => true
  | String c prefix' =>
      match s with
      | EmptyString => false
      | String d s' => if Ascii.eqb c d then startswith s' prefix' else false
      end
  end.

(** [s[n:]] *)
Fixpoint slice_from (n : nat) (s : string) : string :=
  match n with
  | O => s
  | S n' =>
      match s with
      | EmptyString => EmptyString
      | String _ s' => slice_from n' s'
      end
  end.

(** [s.rstrip('/')] *)
Fixpoint rstrip_slash (s : string) : string :=
  match s with
  | EmptyString => EmptyString
  | String c s' =>
      match rstrip_slash s' with
      | EmptyString => if Ascii.eqb c "/"%char then EmptyString else String c EmptyString
      | r => String c r
      end
  end.

(** [c in s] for a single character [c] *)
Fixpoint str_contains (c : ascii) (s : string) : bool :=
  match s with
  | EmptyString => false
  | String d s' => if Ascii.eqb c d then true else str_contains c s'
  end.

(** ** Exceptions and results *)

(** The exception classes the subsystem raises or can meet.  All of them are
    subclasses of [Exception]; [JSONDecodeError] is a subclass of
    [ValueError]. *)
Inductive exn : Type :=
  | ValueError (msg : string)
  | JSONDecodeError
  | KeyError
  | IndexError
  | TypeError
  | AttributeError
  | ConnectError
  | HTTPStatusError (status_code : Z)
  | TimeoutException
  | OtherException (msg : string).

(** [isinstance(e, ValueError)] *)
Definition isinstance_ValueError (e : exn) : bool :=
  match e with
  | ValueError _ | JSONDecodeError => true
  | _ => false
  end.

Inductive result (A : Type) : Type :=
  | Ok (a : A)
  | Raise (e : exn).
Arguments Ok {A} a.
Arguments Raise {A} e.

(** ** Configuration ([backend/config.py]) *)

Record Config : Type := {
  LLM_PROVIDER : string;
  OPENROUTER_API_KEY : option string;   (* [os.getenv] gives [None] or a [str] *)
  OLLAMA_BASE_URL : string
}.

Definition VALID_PROVIDERS : list string := ["openrouter"; "ollama"; "mixed"].

(** Truthiness of an optional string: [None] and [""] are falsy. *)
Definition truthy (v : option string) : bool :=
  match v with
  | None => false
  | Some EmptyString => false
  | Some _ => true
  end.

(** The two import-time checks of [config.py]: the module only loads when
    both pass. *)
Definition config_loads (cfg : Config) : bool :=
  bool_decide (LLM_PROVIDER cfg ∈ VALID_PROVIDERS)
  && negb (bool_decide (LLM_PROVIDER cfg ∈ ["openrouter"; "mixed"])
           && negb (truthy (OPENROUTER_API_KEY cfg))).

(** ** parse_model_spec *)

Definition mixed_mode_message (model_spec : string) : string :=
  "In mixed mode, model spec '" +:+ model_spec +:+
  "' must include provider prefix (e.g., 'ollama:llama3.1:8b' or 'openrouter:openai/gpt-4o')".

(** Lines 104-111, the tail of [parse_model_spec] reached by a specifier
    without a recognised prefix ("simple mode"). *)
Definition simple_mode (cfg : Config) (model_spec : string) : result (string * string) :=
  if String.eqb (LLM_PROVIDER cfg) "mixed"
  then Raise (ValueError (mixed_mode_message model_spec))
  else Ok (LLM_PROVIDER cfg, model_spec).

Definition parse_model_spec (cfg : Config) (model_spec : string) : result (string * string) :=
  if startswith model_spec "ollama:" then Ok ("ollama", slice_from 7 model_spec)
  else if startswith model_spec "openrouter:" then Ok ("openrouter", slice_from 11 model_spec)
  else simple_mode cfg model_spec.

(** ** JSON values and the Python operations applied to them *)

(** What [response.json()] returns.  A JSON object is kept as its list of
    members in document order; [None] is [JNull]. *)
Inductive json : Type :=
  | JNull
  | JBool (b : bool)
  | JNum (n : Z)
  | JStr (s : string)
  | JArr (items : list json)
  | JObj (members : list (string * json)).

(** Lookup in a parsed object: when a key is repeated the last member wins,
    as in [json.loads]. *)
Fixpoint members_lookup (k : string) (members : list (string * json)) : option json :=
  match members with
  | [] => None
  | (k', v) :: rest =>
      match members_lookup k rest with
      | Some v' => Some v'
      | None => if String.eqb k k' then Some v else None
      end
  end.

(** [v[key]] for a string key *)
Definition getitem_str (v : json) (key : string) : result json :=
  match v with
  | JObj members =>
      match members_lookup key members with
      | Some x => Ok x
      | None => Raise KeyError
      end
  | _ => Raise TypeError
  end.

(** [v[0]] *)
Definition getitem_0 (v : json) : result json :=
  match v with
  | JArr (x :: _) => Ok x
  | JArr [] => Raise IndexError
  | JStr (String c _) => Ok (JStr (String c EmptyString))
  | JStr EmptyString => Raise IndexError
  | JObj _ => Raise KeyError
  | _ => Raise TypeError
  end.

(** [v.get(key)] *)
Definition get_method (v : json) (key : string) : result json :=
  match v with
  | JObj members =>
      match members_lookup key members with
      | Some x => Ok x
      | None => Ok JNull
      end
  | _ => Raise AttributeError
  end.

(** ** The HTTP transport *)

Record Message : Type := { role : string; msg_content : string }.

(** One [client.post(url, headers=headers, json={model, messages})] made with
    an [AsyncClient(timeout=timeout)].  A model id is whatever Python value
    the caller passes: a [str], or [None]. *)
Record Request : Type := {
  url : string;
  authorization : option string;
  model : option string;
  messages : list Message;
  timeout : Z
}.

(** What one request comes to: the transport raises, or a response arrives
    with a status code and a body that is JSON or is not. *)
Inductive HttpOutcome : Type :=
  | TransportError (e : exn)
  | Response (status_code : Z) (body : option json).

(** The answer to the [n]-th request of the process. *)
Definition Backend : Type := nat → Request → HttpOutcome.

(** [response.raise_for_status()]: httpx raises [HTTPStatusError] for every
    status that is not a success (2xx). *)
Definition raise_for_status (status_code : Z) : result unit :=
  if ((200 <=? status_code) && (status_code <=? 299))%Z then Ok tt
  else Raise (HTTPStatusError status_code).

(** [response.json()] *)
Definition response_json (body : option json) : result json :=
  match body with
  | Some data => Ok data
  | None => Raise JSONDecodeError
  end.

(** ** Provider instances and the process state *)

(** An instance of one of the two [LLMProvider] subclasses, with its
    attributes.  [obj_id] is the identity of the object: the number of
    provider objects constructed before it. *)
Inductive LLMProvider : Type :=
  | OpenRouterProvider (obj_id : nat) (api_key : string) (api_url : string)
  | OllamaProvider (obj_id : nat) (base_url : string) (api_endpoint : string).

(** The dictionary [{'content': ..., 'reasoning_details': ...}]. *)
Record QueryResult : Type := {
  content : json;
  reasoning_details : json
}.

(** The state of the process: the module-level [_provider_instances], every
    provider object constructed so far (with the name it was constructed
    for), and every request sent so far. *)
Record World : Type := {
  _provider_instances : gmap string LLMProvider;
  constructed : list (string * LLMProvider);
  requests : list Request
}.

Definition initial_world : World :=
  {| _provider_instances := ∅; constructed := []; requests := [] |}.

(** ** The monad of stateful code that may raise *)

Definition M (A : Type) : Type := World → result A * World.

Definition ret {A} (a : A) : M A := λ w, (Ok a, w).
Definition raise {A} (e : exn) : M A := λ w, (Raise e, w).
Definition bind {A B} (c : M A) (k : A → M B) : M B :=
  λ w, match c w with
       | (Ok a, w') => k a w'
       | (Raise e, w') => (Raise e, w')
       end.
Definition lift {A} (r : result A) : M A := λ w, (r, w).

Notation "x <- c ;; k" := (bind c (λ x, k))
  (at level 100, c at next level, right associativity).

(** [try: body  except <class> as e: handler e]; an exception outside the
    class propagates. *)
Definition try_except {A} (body : M A) (catches : exn → bool) (handler : exn → M A) : M A :=
  λ w, match body w with
       | (Ok a, w') => (Ok a, w')
       | (Raise e, w') => if catches e then handler e w' else (Raise e, w')
       end.

(** [except Exception] catches every exception of [exn]. *)
Definition isinstance_Exception (e : exn) : bool := true.

(** [await asyncio.gather] over the tasks: the results in task order; the first
    exception raised by a task is raised by [gather]. *)
Fixpoint gather {A} (tasks : list (M A)) : M (list A) :=
  match tasks with
  | [] => ret []
  | t :: ts => r <- t ;; rs <- gather ts ;; ret (r :: rs)
  end.

(** The state once one more request has been sent. *)
Definition record_request (req : Request) (w : World) : World :=
  {| _provider_instances := _provider_instances w;
     constructed := constructed w;
     requests := requests w ++ [req] |}.

(** The state once a list of requests has been sent, in order. *)
Definition record_requests (reqs : list Request) (w : World) : World :=
  fold_left (λ w req, record_request req w) reqs w.

(** [await client.post(...)]: the request is sent and the backend answers. *)
Definition http_post (net : Backend) (req : Request) : M (Z * option json) :=
  λ w,
    match net (length (requests w)) req with
    | TransportError e => (Raise e, record_request req w)
    | Response status_code body => (Ok (status_code, body), record_request req w)
    end.

(** ** OpenRouterProvider and OllamaProvider *)

(** [OpenRouterProvider(api_key=...)], with the default [api_url]. *)
Definition new_OpenRouterProvider (obj_id : nat) (api_key : string) : LLMProvider :=
  OpenRouterProvider obj_id api_key "https://openrouter.ai/api/v1/chat/completions".

(** [OllamaProvider(base_url=...)]: [__init__] strips trailing slashes and
    derives the endpoint. *)
Definition new_OllamaProvider (obj_id : nat) (base_url : string) : LLMProvider :=
  let base_url := rstrip_slash base_url in
  OllamaProvider obj_id base_url (base_url +:+ "/v1/chat/completions").

(** The request a provider sends for one model: URL and headers come from the
    instance's attributes, the payload from the arguments. *)
Definition provider_request (self : LLMProvider) (model : option string)
    (messages : list Message) (timeout : Z) : Request :=
  match self with
  | OpenRouterProvider _ api_key api_url =>
      {| url := api_url; authorization := Some ("Bearer " +:+ api_key);
         model := model; messages := messages; timeout := timeout |}
  | OllamaProvider _ _ api_endpoint =>
      {| url := api_endpoint; authorization := None;
         model := model; messages := messages; timeout := timeout |}
  end.

(** The statements both [query_model] methods share inside their [try]:
    post, [raise_for_status], [response.json()] and
    [data['choices'][0]['message']]. *)
Definition fetch_message (net : Backend) (req : Request) : M json :=
  response <- http_post net req ;;
  _ <- lift (raise_for_status response.1) ;;
  data <- lift (response_json response.2) ;;
  choices <- lift (getitem_str data "choices") ;;
  choice <- lift (getitem_0 choices) ;;
  lift (getitem_str choice "message").

(** [OpenRouterProvider.query_model] *)
Definition OpenRouterProvider_query_model (net : Backend) (self : LLMProvider)
    (model : option string) (messages : list Message) (timeout : Z)
    : M (option QueryResult) :=
  try_except
    (message <- fetch_message net (provider_request self model messages timeout) ;;
     c <- lift (get_method message "content") ;;
     r <- lift (get_method message "reasoning_details") ;;
     ret (Some {| content := c; reasoning_details := r |}))
    isinstance_Exception
    (λ e, ret None).

(** [OllamaProvider.query_model]; the four handlers differ only in what they
    log. *)
Definition OllamaProvider_query_model (net : Backend) (self : LLMProvider)
    (model : option string) (messages : list Message) (timeout : Z)
    : M (option QueryResult) :=
  try_except
    (message <- fetch_message net (provider_request self model messages timeout) ;;
     c <- lift (get_method message "content") ;;
     ret (Some {| content := c; reasoning_details := JNull |}))
    isinstance_Exception
    (λ e, match e with
          | ConnectError => ret None
          | HTTPStatusError _ => ret None
          | TimeoutException => ret None
          | _ => ret None
          end).

(** [self.query_model(model, messages, timeout)], dispatched on the class of
    [self]. *)
Definition provider_query_model (net : Backend) (self : LLMProvider)
    (model : option string) (messages : list Message) (timeout : Z)
    : M (option QueryResult) :=
  match self with
  | OpenRouterProvider _ _ _ => OpenRouterProvider_query_model net self model messages timeout
  | OllamaProvider _ _ _ => OllamaProvider_query_model net self model messages timeout
  end.

(** [{k: v for k, v in pairs}]: a later pair with the same key replaces an
    earlier one. *)
Definition dict_of_pairs {K V} `{Countable K} (pairs : list (K * V)) : gmap K V :=
  fold_left (λ d kv, <[kv.1 := kv.2]> d) pairs ∅.

(** [zip(xs, ys)] *)
Fixpoint zip {A B} (xs : list A) (ys : list B) : list (A * B) :=
  match xs, ys with
  | x :: xs', y :: ys' => (x, y) :: zip xs' ys'
  | _, _ => []
  end.

(** [query_models_parallel] of both providers (the two bodies are the same
    text): one [query_model] task per model with the default timeout of 120,
    gathered, then zipped back with the models. *)
Definition provider_query_models_parallel (net : Backend) (self : LLMProvider)
    (models : list (option string)) (messages : list Message)
    : M (gmap (option string) (option QueryResult)) :=
  let tasks := map (λ model, provider_query_model net self model messages 120%Z) models in
  responses <- gather tasks ;;
  ret (dict_of_pairs (zip models responses)).


(** ** The registry: get_provider *)

Definition invalid_provider_message (provider_name : string) : string :=
  "Invalid provider name '" +:+ provider_name +:+ "'. Must be 'openrouter' or 'ollama'".

Definition missing_key_message : string :=
  "OPENROUTER_API_KEY is required for openrouter provider. Set it in your .env file.".

(** [d[key]] on a [dict] *)
Definition dict_getitem {K V} `{Countable K} (d : gmap K V) (key : K) : result V :=
  match d !! key with
  | Some v => Ok v
  | None => Raise KeyError
  end.

(** [_provider_instances[provider_name] = <new object>], where the object is
    built by [mk] from its identity. *)
Definition store_new_instance (provider_name : string) (mk : nat → LLMProvider) : M unit :=
  λ w,
    let inst := mk (length (constructed w)) in
    (Ok tt,
     {| _provider_instances := <[provider_name := inst]> (_provider_instances w);
        constructed := constructed w ++ [(provider_name, inst)];
        requests := requests w |}).

(** [_provider_instances[provider_name]] *)
Definition read_instance (provider_name : string) : M LLMProvider :=
  λ w, (dict_getitem (_provider_instances w) provider_name, w).

(** [provider_name in _provider_instances] *)
Definition instance_cached (provider_name : string) : M bool :=
  λ w, (Ok (bool_decide (is_Some (_provider_instances w !! provider_name))), w).

Definition get_provider (cfg : Config) (provider_name : string) : M LLMProvider :=
  if negb (bool_decide (provider_name ∈ ["openrouter"; "ollama"]))
  then raise (ValueError (invalid_provider_message provider_name))
  else
    cached <- instance_cached provider_name ;;
    if cached : bool then read_instance provider_name
    else
      _ <- (if String.eqb provider_name "openrouter" then
             if negb (truthy (OPENROUTER_API_KEY cfg))
             then raise (ValueError missing_key_message)
             else store_new_instance provider_name
                    (λ i, new_OpenRouterProvider i (default "" (OPENROUTER_API_KEY cfg)))
           else
             store_new_instance provider_name
               (λ i, new_OllamaProvider i (OLLAMA_BASE_URL cfg))) ;;
      read_instance provider_name.

(** ** The router: query_model and query_models_parallel *)

(** [query_model(model_spec, messages, timeout)] of
    [providers/__init__.py]; both handlers return [None]. *)
Definition query_model (cfg : Config) (net : Backend) (model_spec : string)
    (messages : list Message) (timeout : Z) : M (option QueryResult) :=
  try_except
    (pm <- lift (parse_model_spec cfg model_spec) ;;
     provider <- get_provider cfg pm.1 ;;
     provider_query_model net provider (Some pm.2) messages timeout)
    isinstance_Exception
    (λ e, if isinstance_ValueError e then ret None else ret None).

(** [provider_groups]: provider name -> [(spec, model_id)], in insertion
    order.  The model id of an entry under ["_invalid"] is [None]. *)
Abbreviation Groups := (list (string * list (string * option string))).

(** [provider_groups[provider_name].append(entry)], creating the list when
    the name is new; also [provider_groups.setdefault(name, []).append(entry)]. *)
Fixpoint groups_append (provider_name : string) (entry : string * option string)
    (provider_groups : Groups) : Groups :=
  match provider_groups with
  | [] => [(provider_name, [entry])]
  | (name, entries) :: rest =>
      if String.eqb provider_name name
      then (name, entries ++ [entry]) :: rest
      else (name, entries) :: groups_append provider_name entry rest
  end.

(** A [for] loop that threads the variables it assigns. *)
Fixpoint for_each {A S} (xs : list A) (body : S → A → M S) (s : S) : M S :=
  match xs with
  | [] => ret s
  | x :: xs' => s' <- body s x ;; for_each xs' body s'
  end.

(** Body of the first loop (lines 211-220). *)
Definition group_spec (cfg : Config) (provider_groups : Groups) (model_spec : string)
    : M Groups :=
  try_except
    (pm <- lift (parse_model_spec cfg model_spec) ;;
     ret (groups_append pm.1 (model_spec, Some pm.2) provider_groups))
    isinstance_ValueError
    (λ e, ret (groups_append "_invalid" (model_spec, None) provider_groups)).

(** The arguments of one [query_provider_batch(prov, model_ids_list,
    specs_list)] coroutine. *)
Record Task : Type := {
  prov : LLMProvider;
  model_ids_list : list (option string);
  specs_list : list (string * option string)
}.

(** [for model_spec, _ in specs_and_models: all_results[model_spec] = None] *)
Definition mark_failed (specs_and_models : list (string * option string))
    (all_results : gmap string (option QueryResult)) : gmap string (option QueryResult) :=
  fold_left (λ d sm, <[sm.1 := None]> d) specs_and_models all_results.

(** Body of the second loop (lines 227-259) over the pair
    [(all_results, provider_tasks)]. *)
Definition plan_group (cfg : Config)
    (st : gmap string (option QueryResult) * list Task)
    (group : string * list (string * option string))
    : M (gmap string (option QueryResult) * list Task) :=
  let all_results := st.1 in
  let provider_tasks := st.2 in
  let provider_name := group.1 in
  let specs_and_models := group.2 in
  if String.eqb provider_name "_invalid"
  then ret (mark_failed specs_and_models all_results, provider_tasks)
  else
    got <- try_except
             (provider <- get_provider cfg provider_name ;; ret (Some provider))
             isinstance_ValueError
             (λ e, ret None) ;;
    match got with
    | None => ret (mark_failed specs_and_models all_results, provider_tasks)
    | Some provider =>
        let model_ids := map snd specs_and_models in
        ret (all_results,
             provider_tasks ++
               [{| prov := provider; model_ids_list := model_ids;
                   specs_list := specs_and_models |}])
    end.

(** [query_provider_batch] (lines 248-255): the dictionary comprehension
    subscripts [results] once per entry. *)
Definition query_provider_batch (net : Backend) (messages : list Message) (t : Task)
    : M (gmap string (option QueryResult)) :=
  results <- provider_query_models_parallel net (prov t) (model_ids_list t) messages ;;
  for_each (specs_list t)
    (λ d sm, v <- lift (dict_getitem results sm.2) ;; ret (<[sm.1 := v]> d))
    ∅.

(** [all_results.update(result_dict)] for each gathered dictionary. *)
Definition merge_results (provider_results : list (gmap string (option QueryResult)))
    (all_results : gmap string (option QueryResult)) : gmap string (option QueryResult) :=
  fold_left (λ acc result_dict, result_dict ∪ acc) provider_results all_results.

(** Lines 270-272. *)
Definition fill_missing (model_specs : list string)
    (all_results : gmap string (option QueryResult)) : gmap string (option QueryResult) :=
  fold_left
    (λ acc model_spec,
       if bool_decide (is_Some (acc !! model_spec)) then acc
       else <[model_spec := None]> acc)
    model_specs all_results.

Definition query_models_parallel (cfg : Config) (net : Backend)
    (model_specs : list string) (messages : list Message)
    : M (gmap string (option QueryResult)) :=
  provider_groups <- for_each model_specs (group_spec cfg) [] ;;
  st <- for_each provider_groups (plan_group cfg) (∅, []) ;;
  all_results <-
    (match st.2 with
     | [] => ret st.1
     | _ :: _ =>
         provider_results <- gather (map (query_provider_batch net messages) st.2) ;;
         ret (merge_results provider_results st.1)
     end) ;;
  ret (fill_missing model_specs all_results).

(** ** get_provider statement by statement

    The same function cut at its statements, for callers whose executions
    may interleave.  A caller is at one of four program points or has
    returned. *)
Inductive ProgramPoint : Type :=
  | AtNameCheck                        (* line 42 *)
  | AtCacheCheck                       (* lines 48-49 *)
  | AtConstruct                        (* lines 52-64 *)
  | AtReturn                           (* line 66 *)
  | Returned (r : result LLMProvider).

Definition get_provider_step (cfg : Config) (provider_name : string)
    (pc : ProgramPoint) (w : World) : ProgramPoint * World :=
  match pc with
  | AtNameCheck =>
      if negb (bool_decide (provider_name ∈ ["openrouter"; "ollama"]))
      then (Returned (Raise (ValueError (invalid_provider_message provider_name))), w)
      else (AtCacheCheck, w)
  | AtCacheCheck =>
      match instance_cached provider_name w with
      | (Ok true, w') => let (r, w'') := read_instance provider_name w' in (Returned r, w'')
      | (_, w') => (AtConstruct, w')
      end
  | AtConstruct =>
      if String.eqb provider_name "openrouter" then
        if negb (truthy (OPENROUTER_API_KEY cfg))
        then (Returned (Raise (ValueError missing_key_message)), w)
        else (AtReturn,
              (store_new_instance provider_name
                 (λ i, new_OpenRouterProvider i (default "" (OPENROUTER_API_KEY cfg))) w).2)
      else
        (AtReturn,
         (store_new_instance provider_name
            (λ i, new_OllamaProvider i (OLLAMA_BASE_URL cfg)) w).2)
  | AtReturn => let (r, w') := read_instance provider_name w in (Returned r, w')
  | Returned r => (Returned r, w)
  end.

(** Concurrent callers: each has the name it asked for and its program
    point.  A schedule names, step by step, the caller that runs next. *)
Definition Callers : Type := list (string * ProgramPoint).

Definition step_caller (cfg : Config) (i : nat) (cs : Callers) (w : World)
    : Callers * World :=
  match cs !! i with
  | Some (provider_name, pc) =>
      let (pc', w') := get_provider_step cfg provider_name pc w in
      (<[i := (provider_name, pc')]> cs, w')
  | None => (cs, w)
  end.

Fixpoint run_schedule (cfg : Config) (schedule : list nat) (cs : Callers) (w : World)
    : Callers * World :=
  match schedule with
  | [] => (cs, w)
  | i :: rest => let (cs', w') := step_caller cfg i cs w in run_schedule cfg rest cs' w'
  end.

(** Callers that run one after the other, each to completion; every call
    may see its own configuration. *)
Fixpoint run_calls (calls : list (Config * string)) (w : World)
    : list (result LLMProvider) * World :=
  match calls with
  | [] => ([], w)
  | (cfg, provider_name) :: rest =>
      let (r, w') := get_provider cfg provider_name w in
      let (rs, w'') := run_calls rest w' in
      (r :: rs, w'')
  end.

(** How many provider objects were constructed for a name. *)
Definition constructions (provider_name : string) (w : World) : nat :=
  length (filter (λ e, e.1 = provider_name) (constructed w)).

(** ** Sample configurations

    Concrete inputs at which the theorems below are instantiated. *)

Definition cfg_with_key : Config :=
  {| LLM_PROVIDER := "openrouter"; OPENROUTER_API_KEY := Some "sk-or-v1-k";
     OLLAMA_BASE_URL := "http://localhost:11434" |}.

Definition cfg_without_key : Config :=
  {| LLM_PROVIDER := "ollama"; OPENROUTER_API_KEY := None;
     OLLAMA_BASE_URL := "http://localhost:11434" |}.

Definition cfg_mixed : Config :=
  {| LLM_PROVIDER := "mixed"; OPENROUTER_API_KEY := Some "sk-or-v1-k";
     OLLAMA_BASE_URL := "http://localhost:11434" |}.

(** ** Backend failure

    The failures section 7 of the specification lists for a backend:
    connection error or timeout (the transport raises), an HTTP error
    status, a body that is not JSON, and a payload without a
    [choices[0].message] object. *)

Definition has_message (data : json) : bool :=
  match data with
  | JObj members =>
      match members_lookup "choices" members with
      | Some (JArr (JObj choice :: _)) =>
          match members_lookup "message" choice with
          | Some (JObj _) => true
          | _ => false
          end
      | _ => false
      end
  | _ => false
  end.

Definition backend_failure (out : HttpOutcome) : bool :=
  match out with
  | TransportError _ => true
  | Response _ None => true
  | Response status_code (Some data) =>
      negb ((200 <=? status_code) && (status_code <=? 299))%Z || negb (has_message data)
  end.

(** ** Sample backends *)

(** A well-formed chat completion with the given content. *)
Definition completion (text : string) : json :=
  JObj [("choices",
         JArr [JObj [("message",
                      JObj [("role", JStr "assistant"); ("content", JStr text)])]])].

(** A 200 response whose message has no [content] member. *)
Definition completion_without_content : json :=
  JObj [("choices", JArr [JObj [("message", JObj [("role", JStr "assistant")])]])].

Definition net_ok : Backend := λ _ _, Response 200 (Some (completion "hi")).

Definition net_without_content : Backend :=
  λ _ _, Response 200 (Some completion_without_content).

(** The first request of the process is refused, every later one answered. *)
Definition net_first_refused : Backend :=
  λ n _, match n with
         | O => TransportError ConnectError
         | S _ => Response 200 (Some (completion "hi"))
         end.

(** Requests for the model ["mistral:latest"] time out, the others are
    answered. *)
Definition net_mistral_down : Backend :=
  λ _ req, if bool_decide (model req = Some "mistral:latest")
           then TransportError TimeoutException
           else Response 200 (Some (completion "hi")).

(** ** Where a specifier goes

    The group the first loop of [query_models_parallel] files a specifier
    under, the entry it files, and whether a specifier is destined for a
    given provider. *)

Definition spec_key (cfg : Config) (model_spec : string) : string :=
  match parse_model_spec cfg model_spec with
  | Ok pm => pm.1
  | Raise _ => "_invalid"
  end.

Definition spec_entry (cfg : Config) (model_spec : string) : string * option string :=
  match parse_model_spec cfg model_spec with
  | Ok pm => (model_spec, Some pm.2)
  | Raise _ => (model_spec, None)
  end.

Definition destined (cfg : Config) (provider_name model_spec : string) : bool :=
  match parse_model_spec cfg model_spec with
  | Ok pm => String.eqb pm.1 provider_name
  | Raise _ => false
  end.

(** ** Notions used to state what the registry hands out *)

(** The same provider object under another identity. *)
Definition reidentify (j : nat) (inst : LLMProvider) : LLMProvider :=
  match inst with
  | OpenRouterProvider _ api_key api_url => OpenRouterProvider j api_key api_url
  | OllamaProvider _ base_url api_endpoint => OllamaProvider j base_url api_endpoint
  end.

(** A property of provider objects that does not look at their identity. *)
Definition id_blind (R : LLMProvider → Prop) : Prop :=
  ∀ inst j, R inst → R (reidentify j inst).

(** In state [w], whatever [get_provider] returns for [provider_name]
    satisfies [R]. *)
Definition hands_out (cfg : Config) (provider_name : string)
    (R : LLMProvider → Prop) (w : World) : Prop :=
  ∀ inst w', get_provider cfg provider_name w = (Ok inst, w') → R inst.

(** ** Loading the configuration ([backend/config.py], module level) *)

(** [os.environ] once [load_dotenv()] has run. *)
Abbreviation Environ := (gmap string string).

(** [os.getenv(name)] and [os.getenv(name, default)] *)
Definition getenv (env : Environ) (name : string) : option string := env !! name.
Definition getenv_default (env : Environ) (name default : string) : string :=
  match env !! name with
  | Some v => v
  | None => default
  end.

Definition invalid_mode_message (mode : string) : string :=
  "Invalid LLM_PROVIDER '" +:+ mode +:+
  "'. Must be one of ['openrouter', 'ollama', 'mixed']".

Definition api_key_not_set_message : string :=
  "OPENROUTER_API_KEY is not set. Please create a .env file with your API key: OPENROUTER_API_KEY=sk-or-v1-...".

(** The module body as far as the values the providers package imports:
    the configuration, or the [ValueError] that aborts the import. *)
Definition load_config (env : Environ) : result Config :=
  let mode := getenv_default env "LLM_PROVIDER" "openrouter" in
  if negb (bool_decide (mode ∈ VALID_PROVIDERS))
  then Raise (ValueError (invalid_mode_message mode))
  else
    let key := getenv env "OPENROUTER_API_KEY" in
    if bool_decide (mode ∈ ["openrouter"; "mixed"]) && negb (truthy key)
    then Raise (ValueError api_key_not_set_message)
    else Ok {| LLM_PROVIDER := mode;
               OPENROUTER_API_KEY := key;
               OLLAMA_BASE_URL :=
                 getenv_default env "OLLAMA_BASE_URL" "http://localhost:11434" |}.

(** ** The prompt loader ([backend/prompts/loader.py]) *)

(** What the file system holds at a path: nothing, something [read_text]
    raises on (a directory, bytes that are not UTF-8, a file gone since
    [exists()]), or a file with its text. *)
Inductive PathState : Type :=
  | Absent
  | Unreadable (e : exn)
  | File (text : string).

Definition FileSystem : Type := string → PathState.

(** How a call of [load_prompt] ends: it returns the template, raises its
    own [FileNotFoundError], or lets the exception of [read_text] through. *)
Inductive LoadResult (A : Type) : Type :=
  | Loaded (a : A)
  | FileNotFoundError (msg : string)
  | ReadError (e : exn).
Arguments Loaded {A} a.
Arguments FileNotFoundError {A} msg.
Arguments ReadError {A} e.

Section prompt_loader.

(** [str(_get_prompts_dir() / file_name)]: the path of a file of the prompts
    directory. *)
Variable prompt_path : string → string.

(** [load_prompt(name)] over the module-level cache [_loaded_prompts]. *)
Definition load_prompt (fs : FileSystem) (name : string)
    (_loaded_prompts : gmap string string) : LoadResult string * gmap string string :=
  match _loaded_prompts !! name with
  | Some content => (Loaded content, _loaded_prompts)
  | None =>
      let path := prompt_path (name +:+ ".md") in
      match fs path with
      | Absent => (FileNotFoundError ("Prompt file not found: " +:+ path), _loaded_prompts)
      | Unreadable e => (ReadError e, _loaded_prompts)
      | File content => (Loaded content, <[name := content]> _loaded_prompts)
      end
  end.

(** The three module-level constants. *)
Record Templates : Type := {
  STAGE2_RANKING_TEMPLATE : string;
  STAGE3_CHAIRMAN_TEMPLATE : string;
  TITLE_GENERATION_TEMPLATE : string
}.

(** Importing the module: the cache starts empty and the three templates
    are loaded in order; the first exception aborts the import. *)
Definition import_loader (fs : FileSystem) : LoadResult Templates * gmap string string :=
  match load_prompt fs "stage2_ranking" ∅ with
  | (Loaded t2, c2) =>
      match load_prompt fs "stage3_chairman" c2 with
      | (Loaded t3, c3) =>
          match load_prompt fs "title_generation" c3 with
          | (Loaded t1, c4) =>
              (Loaded {| STAGE2_RANKING_TEMPLATE := t2;
                         STAGE3_CHAIRMAN_TEMPLATE := t3;
                         TITLE_GENERATION_TEMPLATE := t1 |}, c4)
          | (FileNotFoundError msg, c4) => (FileNotFoundError msg, c4)
          | (ReadError e, c4) => (ReadError e, c4)
          end
      | (FileNotFoundError msg, c3) => (FileNotFoundError msg, c3)
      | (ReadError e, c3) => (ReadError e, c3)
      end
  | (FileNotFoundError msg, c2) => (FileNotFoundError msg, c2)
  | (ReadError e, c2) => (ReadError e, c2)
  end.

End prompt_loader.

(** ** Notions used to state what the router does to the state *)

(** The construction log and the registry agree: one object was constructed
    for each cached name and none for any other. *)
Definition registry_consistent (w : World) : Prop :=
  ∀ name, constructions name w
          = match _provider_instances w !! name with Some _ => 1 | None => 0 end.

(** [get_provider] can hand out a provider for the name: the name is one of
    the two, and the instance is cached or can be constructed. *)
Definition obtainable (cfg : Config) (w : World) (provider_name : string) : bool :=
  bool_decide (provider_name ∈ ["openrouter"; "ollama"])
  && (bool_decide (is_Some (_provider_instances w !! provider_name))
      || negb (String.eqb provider_name "openrouter")
      || truthy (OPENROUTER_API_KEY cfg)).

(** The specifier parses and its provider can be obtained. *)
Definition routable (cfg : Config) (w : World) (model_spec : string) : bool :=
  match parse_model_spec cfg model_spec with
  | Ok pm => obtainable cfg w pm.1
  | Raise _ => false
  end.

(** A string of [n] slashes. *)
Fixpoint slashes (n : nat) : string :=
  match n with
  | O => EmptyString
  | S n' => String "/" (slashes n')
  end.

(** The last character of a string, if any. *)
Fixpoint last_char (s : string) : option ascii :=
  match s with
  | EmptyString => None
  | String c EmptyString => Some c
  | String _ s' => last_char s'
  end.

(** ** Notions used to state what a successful query returns *)

(** The members of [data['choices'][0]['message']] when the payload has
    that object. *)
Definition first_message (data : json) : option (list (string * json)) :=
  match data with
  | JObj members =>
      match members_lookup "choices" members with
      | Some (JArr (JObj choice :: _)) =>
          match members_lookup "message" choice with
          | Some (JObj message) => Some message
          | _ => None
          end
      | _ => None
      end
  | _ => None
  end.

(** The value of a member, [None] when the object does not have it. *)
Definition member_or_null (key : string) (members : list (string * json)) : json :=
  match members_lookup key members with
  | Some v => v
  | None => JNull
  end.

(** A succession of batches, each with its own backend behaviour,
    specifiers and messages: the state after all of them. *)
Fixpoint run_batches (cfg : Config)
    (batches : list (Backend * list string * list Message)) (w : World) : World :=
  match batches with
  | [] => w
  | (net, model_specs, messages) :: rest =>
      run_batches cfg rest (query_models_parallel cfg net model_specs messages w).2
  end.

(** ** Sample prompt directories *)

Definition sample_prompt_path (file_name : string) : string :=
  "/app/backend/prompts/" +:+ file_name.

(** A prompts directory with the three template files. *)
Definition fs_with_prompts : FileSystem :=
  λ path,
    if String.eqb path "/app/backend/prompts/stage2_ranking.md" then File "Rank: {responses}"
    else if String.eqb path "/app/backend/prompts/stage3_chairman.md" then File "Chair: {rankings}"
    else if String.eqb path "/app/backend/prompts/title_generation.md" then File "Title: {query}"
    else Absent.

(** An empty prompts directory. *)
Definition fs_without_prompts : FileSystem := λ _, Absent.

(** * Properties *)

(** ** Strings *)

Lemma append_nil (b : string) : "" +:+ b = b.
Proof. reflexivity. Qed.

Lemma append_cons (x : ascii) (a b : string) : String x a +:+ b = String x (a +:+ b).
Proof. reflexivity. Qed.

Lemma append_assoc (a b c : string) : (a +:+ b) +:+ c = a +:+ b +:+ c.
Proof.
  induction a as [|x a IH]; [done|].
  by rewrite !append_cons, IH.
Qed.

Lemma startswith_app (p m : string) : startswith (p +:+ m) p = true.
Proof.
  induction p as [|c p IH]; [done|].
  rewrite append_cons. cbn [startswith]. by rewrite Ascii.eqb_refl.
Qed.

Lemma startswith_inv (s p : string) :
  startswith s p = true → ∃ m, s = p +:+ m.
Proof.
  revert s. induction p as [|c p IH]; intros s Hs; cbn [startswith] in Hs.
  - by exists s.
  - destruct s as [|d s]; [done|].
    destruct (Ascii.eqb c d) eqn:Hcd; [|done].
    apply Ascii.eqb_eq in Hcd as ->.
    destruct (IH _ Hs) as [m ->]. by exists m.
Qed.

Lemma startswith_false (s p : string) :
  (∀ m, s ≠ p +:+ m) → startswith s p = false.
Proof.
  intros Hne. destruct (startswith s p) eqn:Hs; [|done].
  destruct (startswith_inv _ _ Hs) as [m ->]. by destruct (Hne m).
Qed.

Lemma tag_unique (a b r m : string) :
  str_contains ":" a = false → str_contains ":" b = false →
  a +:+ ":" +:+ r = b +:+ ":" +:+ m → a = b.
Proof.
  revert b. induction a as [|c a IH]; intros [|d b] Ha Hb Heq;
    rewrite ?append_cons, ?append_nil in Heq; cbn [str_contains] in *.
  - done.
  - injection Heq as <- _. by rewrite Ascii.eqb_refl in Hb.
  - injection Heq as -> _. by rewrite Ascii.eqb_refl in Ha.
  - injection Heq as -> Heq.
    destruct (Ascii.eqb ":" d); [done|].
    f_equal. by apply IH.
Qed.

Lemma unknown_tag_no_prefix (known tag rest : string) :
  str_contains ":" known = false → str_contains ":" tag = false →
  tag ≠ known →
  startswith (tag +:+ ":" +:+ rest) (known +:+ ":") = false.
Proof.
  intros Hk Ht Hne. apply startswith_false. intros m Heq.
  apply Hne. apply (tag_unique tag known rest m Ht Hk).
  rewrite Heq. apply append_assoc.
Qed.

(** ** parse_model_spec *)

Lemma parse_ollama cfg (m : string) :
  parse_model_spec cfg ("ollama:" +:+ m) = Ok ("ollama", m).
Proof.
  unfold parse_model_spec. by rewrite (startswith_app "ollama:" m).
Qed.

Lemma parse_openrouter cfg (m : string) :
  parse_model_spec cfg ("openrouter:" +:+ m) = Ok ("openrouter", m).
Proof.
  unfold parse_model_spec.
  assert (startswith ("openrouter:" +:+ m) "ollama:" = false) as -> by done.
  by rewrite (startswith_app "openrouter:" m).
Qed.

Lemma parse_bare cfg (s : string) :
  (∀ m, s ≠ "ollama:" +:+ m) → (∀ m, s ≠ "openrouter:" +:+ m) →
  parse_model_spec cfg s = simple_mode cfg s.
Proof.
  intros H1 H2. unfold parse_model_spec.
  by rewrite (startswith_false _ _ H1), (startswith_false _ _ H2).
Qed.

(** C3.  [parse_model_spec] meets the parser contract: a specifier
    ["ollama:" + m] parses to [("ollama", m)] and ["openrouter:" + m] to
    [("openrouter", m)], for every [m]; a specifier that begins with neither
    prefix raises the mixed-mode [ValueError] when [LLM_PROVIDER] is
    ["mixed"], and otherwise parses to [(LLM_PROVIDER, specifier)] with the
    specifier unchanged. *)
Theorem parse_model_spec_contract (cfg : Config) :
  (∀ m, parse_model_spec cfg ("ollama:" +:+ m) = Ok ("ollama", m)) ∧
  (∀ m, parse_model_spec cfg ("openrouter:" +:+ m) = Ok ("openrouter", m)) ∧
  (∀ s, (∀ m, s ≠ "ollama:" +:+ m) → (∀ m, s ≠ "openrouter:" +:+ m) →
     (LLM_PROVIDER cfg = "mixed" →
        parse_model_spec cfg s = Raise (ValueError (mixed_mode_message s))) ∧
     (LLM_PROVIDER cfg ≠ "mixed" →
        parse_model_spec cfg s = Ok (LLM_PROVIDER cfg, s))).
Proof.
  split; [apply parse_ollama|]. split; [apply parse_openrouter|].
  intros s H1 H2. rewrite (parse_bare cfg s H1 H2). unfold simple_mode.
  split; intros Hmode.
  - by rewrite Hmode.
  - apply String.eqb_neq in Hmode. by rewrite Hmode.
Qed.

(** C4.  A specifier [tag:rest] whose tag is neither ["ollama"] nor
    ["openrouter"] is handled, under every [LLM_PROVIDER], exactly as a
    specifier without prefix: it goes through the simple-mode tail, so outside
    mixed mode it is accepted whole as the model id of the configured
    provider, and in mixed mode it gets the same error as any bare
    specifier. *)
Theorem unknown_prefix_treated_as_bare (cfg : Config) (tag rest : string) :
  str_contains ":" tag = false →
  tag ≠ "ollama" → tag ≠ "openrouter" →
  parse_model_spec cfg (tag +:+ ":" +:+ rest) = simple_mode cfg (tag +:+ ":" +:+ rest) ∧
  (LLM_PROVIDER cfg ≠ "mixed" →
     parse_model_spec cfg (tag +:+ ":" +:+ rest)
     = Ok (LLM_PROVIDER cfg, tag +:+ ":" +:+ rest)).
Proof.
  intros Htag Ho Hr.
  assert (parse_model_spec cfg (tag +:+ ":" +:+ rest)
          = simple_mode cfg (tag +:+ ":" +:+ rest)) as Hp.
  { unfold parse_model_spec.
    assert (startswith (tag +:+ ":" +:+ rest) "ollama:" = false) as ->
      by exact (unknown_tag_no_prefix "ollama" tag rest eq_refl Htag Ho).
    assert (startswith (tag +:+ ":" +:+ rest) "openrouter:" = false) as ->
      by exact (unknown_tag_no_prefix "openrouter" tag rest eq_refl Htag Hr).
    done. }
  split; [done|]. intros Hmode. rewrite Hp. unfold simple_mode.
  apply String.eqb_neq in Hmode. by rewrite Hmode.
Qed.

(** ** The registry *)

Lemma valid_name_cases (name : string) :
  name ∈ ["openrouter"; "ollama"] ↔ name = "openrouter" ∨ name = "ollama".
Proof. rewrite !elem_of_cons, elem_of_nil. tauto. Qed.

Lemma get_provider_invalid cfg name w :
  name ∉ ["openrouter"; "ollama"] →
  get_provider cfg name w = (Raise (ValueError (invalid_provider_message name)), w).
Proof.
  intros Hn. unfold get_provider. by rewrite (bool_decide_eq_false_2 _ Hn).
Qed.

Lemma get_provider_cached cfg name w inst :
  name ∈ ["openrouter"; "ollama"] →
  _provider_instances w !! name = Some inst →
  get_provider cfg name w = (Ok inst, w).
Proof.
  intros Hn Hc. unfold get_provider. rewrite (bool_decide_eq_true_2 _ Hn).
  cbn [negb]. unfold bind, instance_cached, read_instance, dict_getitem.
  rewrite Hc. rewrite bool_decide_eq_true_2 by eauto. by rewrite Hc.
Qed.

Lemma get_provider_uncached cfg name w :
  name ∈ ["openrouter"; "ollama"] →
  _provider_instances w !! name = None →
  get_provider cfg name w =
    (_ <- (if String.eqb name "openrouter" then
             if negb (truthy (OPENROUTER_API_KEY cfg))
             then raise (ValueError missing_key_message)
             else store_new_instance name
                    (λ i, new_OpenRouterProvider i (default "" (OPENROUTER_API_KEY cfg)))
           else
             store_new_instance name
               (λ i, new_OllamaProvider i (OLLAMA_BASE_URL cfg))) ;;
     read_instance name) w.
Proof.
  intros Hn Hc. unfold get_provider. rewrite (bool_decide_eq_true_2 _ Hn).
  cbn [negb]. unfold bind at 1. unfold instance_cached. rewrite Hc.
  rewrite bool_decide_eq_false_2; [done|]. by intros [? ?].
Qed.

Lemma get_provider_missing_key cfg w :
  _provider_instances w !! "openrouter" = None →
  truthy (OPENROUTER_API_KEY cfg) = false →
  get_provider cfg "openrouter" w = (Raise (ValueError missing_key_message), w).
Proof.
  intros Hc Hk. rewrite get_provider_uncached; [|set_solver|done].
  change ("openrouter" =? "openrouter")%string with true. cbv iota.
  by rewrite Hk.
Qed.

Lemma get_provider_inv cfg name w r w' :
  get_provider cfg name w = (r, w') →
  (w' = w ∧
   ((∃ msg, r = Raise (ValueError msg) ∧
       (name ∉ ["openrouter"; "ollama"] ∨
        (name = "openrouter" ∧ _provider_instances w !! name = None ∧
         truthy (OPENROUTER_API_KEY cfg) = false))) ∨
    (∃ inst, r = Ok inst ∧ name ∈ ["openrouter"; "ollama"] ∧
       _provider_instances w !! name = Some inst)))
  ∨
  (∃ inst, r = Ok inst ∧ name ∈ ["openrouter"; "ollama"] ∧
     _provider_instances w !! name = None ∧
     _provider_instances w' = <[name := inst]> (_provider_instances w) ∧
     constructed w' = constructed w ++ [(name, inst)] ∧
     requests w' = requests w ∧
     ((name = "openrouter" ∧ truthy (OPENROUTER_API_KEY cfg) = true ∧
       inst = new_OpenRouterProvider (length (constructed w))
                (default "" (OPENROUTER_API_KEY cfg))) ∨
      (name = "ollama" ∧
       inst = new_OllamaProvider (length (constructed w)) (OLLAMA_BASE_URL cfg)))).
Proof.
  intros Hg.
  destruct (decide (name ∈ ["openrouter"; "ollama"])) as [Hn|Hn].
  2:{ rewrite get_provider_invalid in Hg by done. simplify_eq. left. split; [done|].
      left. eauto. }
  destruct (_provider_instances w !! name) as [inst|] eqn:Hc.
  { rewrite (get_provider_cached _ _ _ inst) in Hg by done. simplify_eq.
    left. split; [done|]. right. eauto. }
  apply valid_name_cases in Hn as Hcases. destruct Hcases as [-> | ->].
  - destruct (truthy (OPENROUTER_API_KEY cfg)) eqn:Hk.
    + right. rewrite get_provider_uncached in Hg by done.
      change ("openrouter" =? "openrouter")%string with true in Hg. cbv iota in Hg.
      rewrite Hk in Hg. cbn [negb] in Hg.
      unfold bind, store_new_instance, read_instance, dict_getitem in Hg.
      cbn [_provider_instances] in Hg. rewrite lookup_insert_eq in Hg.
      simplify_eq. eexists. split; [done|]. cbn. split_and!; try done. left. eauto.
    + rewrite get_provider_missing_key in Hg by done. simplify_eq.
      left. split; [done|]. left. eexists. split; [done|]. right. done.
  - right. rewrite get_provider_uncached in Hg by done.
    change ("ollama" =? "openrouter")%string with false in Hg. cbv iota in Hg.
    unfold bind, store_new_instance, read_instance, dict_getitem in Hg.
    cbn [_provider_instances] in Hg. rewrite lookup_insert_eq in Hg.
    simplify_eq. eexists. split; [done|]. cbn. split_and!; try done. right. eauto.
Qed.

Lemma get_provider_keeps cfg name w r w' k inst :
  get_provider cfg name w = (r, w') →
  _provider_instances w !! k = Some inst →
  _provider_instances w' !! k = Some inst.
Proof.
  intros Hg Hk. apply get_provider_inv in Hg as [[-> _]|(i & _ & _ & Hnone & Hreg & _)]; [done|].
  rewrite Hreg. destruct (decide (name = k)) as [->|Hne]; [congruence|].
  by rewrite lookup_insert_ne.
Qed.

Lemma run_calls_keeps calls w k inst :
  _provider_instances w !! k = Some inst →
  _provider_instances (run_calls calls w).2 !! k = Some inst.
Proof.
  revert w. induction calls as [|[cfg name] calls IH]; intros w Hk; [done|].
  cbn [run_calls].
  destruct (get_provider cfg name w) as [r w1] eqn:Hg.
  specialize (IH w1 (get_provider_keeps _ _ _ _ _ _ _ Hg Hk)).
  by destruct (run_calls calls w1).
Qed.

Lemma get_provider_ok_cached cfg name w inst w' :
  get_provider cfg name w = (Ok inst, w') →
  name ∈ ["openrouter"; "ollama"] ∧ _provider_instances w' !! name = Some inst.
Proof.
  intros Hg.
  apply get_provider_inv in Hg as [[-> [(msg & ? & _)|(i & ? & ? & ?)]]|(i & ? & ? & _ & Hreg & _)];
    simplify_eq; [done|].
  split; [done|]. rewrite Hreg. apply lookup_insert_eq.
Qed.

(** C9.  Once [get_provider] has returned an instance for a name, every later
    call for that name returns that same instance and leaves the state
    untouched, whatever calls came in between and whatever the configuration
    is at the time of the later call; in particular the call does not raise
    when [OPENROUTER_API_KEY] is by then absent. *)
Theorem cached_instance_not_revalidated
    (cfg : Config) (name : string) (w w1 : World) (inst : LLMProvider)
    (between : list (Config * string)) (cfg' : Config) :
  get_provider cfg name w = (Ok inst, w1) →
  let w2 := (run_calls between w1).2 in
  get_provider cfg' name w2 = (Ok inst, w2).
Proof.
  intros Hg w2. apply get_provider_ok_cached in Hg as [Hn Hc].
  apply get_provider_cached; [done|]. by apply run_calls_keeps.
Qed.

Lemma cached_instance_not_revalidated_witness :
  let w1 := (get_provider cfg_with_key "openrouter" initial_world).2 in
  let w2 := (run_calls [(cfg_without_key, "ollama")] w1).2 in
  get_provider cfg_without_key "openrouter" w2
  = (Ok (new_OpenRouterProvider 0 "sk-or-v1-k"), w2).
Proof.
  apply (cached_instance_not_revalidated cfg_with_key "openrouter" initial_world
           (get_provider cfg_with_key "openrouter" initial_world).2
           (new_OpenRouterProvider 0 "sk-or-v1-k")
           [(cfg_without_key, "ollama")] cfg_without_key).
  vm_compute. reflexivity.
Defined.

Lemma parse_model_spec_contract_witness :
  parse_model_spec cfg_with_key "openai/gpt-4o" = Ok ("openrouter", "openai/gpt-4o")
  ∧ parse_model_spec cfg_mixed "openai/gpt-4o"
    = Raise (ValueError (mixed_mode_message "openai/gpt-4o")).
Proof.
  split.
  - apply (parse_model_spec_contract cfg_with_key); [by intros m|by intros m|done].
  - apply (parse_model_spec_contract cfg_mixed); [by intros m|by intros m|done].
Defined.

Lemma unknown_prefix_treated_as_bare_witness :
  parse_model_spec cfg_with_key "foo:bar" = simple_mode cfg_with_key "foo:bar"
  ∧ (LLM_PROVIDER cfg_with_key ≠ "mixed" →
     parse_model_spec cfg_with_key "foo:bar" = Ok ("openrouter", "foo:bar")).
Proof.
  apply (unknown_prefix_treated_as_bare cfg_with_key "foo" "bar");
    [reflexivity|discriminate|discriminate].
Defined.

(** ** One instance per name *)

Lemma constructions_snoc k name inst w w' :
  constructed w' = constructed w ++ [(name, inst)] →
  constructions k w' = constructions k w + (if decide (name = k) then 1 else 0).
Proof.
  intros Hc. unfold constructions. rewrite Hc, filter_app, length_app.
  f_equal. rewrite filter_cons, filter_nil. cbn [fst]. by destruct (decide (name = k)).
Qed.

Lemma get_provider_constructions cfg name w r w' :
  get_provider cfg name w = (r, w') →
  (∀ k, constructions k w = match _provider_instances w !! k with Some _ => 1 | None => 0 end) →
  ∀ k, constructions k w' = match _provider_instances w' !! k with Some _ => 1 | None => 0 end.
Proof.
  intros Hg Hinv k.
  apply get_provider_inv in Hg as [[-> _]|(i & _ & _ & Hnone & Hreg & Hcons & _)]; [done|].
  rewrite (constructions_snoc k name i w w' Hcons), Hreg, Hinv.
  destruct (decide (name = k)) as [->|Hne].
  - by rewrite Hnone, lookup_insert_eq.
  - rewrite lookup_insert_ne by done. lia.
Qed.

Lemma run_calls_constructions calls w :
  (∀ k, constructions k w = match _provider_instances w !! k with Some _ => 1 | None => 0 end) →
  ∀ k, constructions k (run_calls calls w).2
       = match _provider_instances (run_calls calls w).2 !! k with Some _ => 1 | None => 0 end.
Proof.
  revert w. induction calls as [|[cfg name] calls IH]; intros w Hinv; [done|].
  cbn [run_calls]. destruct (get_provider cfg name w) as [r w1] eqn:Hg.
  specialize (IH w1 (get_provider_constructions _ _ _ _ _ Hg Hinv)).
  by destruct (run_calls calls w1).
Qed.

Lemma run_calls_cached calls w name inst j cj :
  name ∈ ["openrouter"; "ollama"] →
  _provider_instances w !! name = Some inst →
  calls !! j = Some (cj, name) →
  (run_calls calls w).1 !! j = Some (Ok inst).
Proof.
  intros Hn. revert w j.
  induction calls as [|[cfg name'] calls IH]; intros w j Hc Hj; [done|].
  cbn [run_calls]. destruct (get_provider cfg name' w) as [r w1] eqn:Hg.
  pose proof (get_provider_keeps _ _ _ _ _ _ _ Hg Hc) as Hc1.
  specialize (IH w1). destruct (run_calls calls w1) as [rs w2]. cbn [fst] in *.
  destruct j as [|j]; cbn in Hj |- *.
  - simplify_eq. rewrite (get_provider_cached _ _ _ inst) in Hg by done. congruence.
  - by apply IH.
Qed.

Lemma run_calls_same_instance calls w i j ci cj name inst :
  i < j → calls !! i = Some (ci, name) → calls !! j = Some (cj, name) →
  (run_calls calls w).1 !! i = Some (Ok inst) →
  (run_calls calls w).1 !! j = Some (Ok inst).
Proof.
  revert w i j. induction calls as [|[cfg name'] calls IH]; intros w i j Hij Hi Hj; [done|].
  cbn [run_calls]. destruct (get_provider cfg name' w) as [r w1] eqn:Hg.
  pose proof (run_calls_cached calls w1 name inst) as Hlater.
  specialize (IH w1). destruct (run_calls calls w1) as [rs w2]. cbn [fst] in *.
  destruct j as [|j]; [lia|]. destruct i as [|i]; cbn in Hi, Hj |- *.
  - intros ?. simplify_eq. apply get_provider_ok_cached in Hg as [Hn Hc]. eauto.
  - apply IH; [lia|done..].
Qed.

(** C7, as the code has it.  The registry has no lock: [get_provider] is
    safe because callers on the event loop run it to completion, one after
    the other.  For every sequence of such calls from the initial state, with
    any names and configurations, at most one provider object is constructed
    per name, and a call that follows a successful call for the same name
    returns the same object. *)
Theorem sequential_calls_construct_once (calls : list (Config * string)) :
  (∀ name, constructions name (run_calls calls initial_world).2 ≤ 1) ∧
  (∀ i j ci cj name inst,
     i < j → calls !! i = Some (ci, name) → calls !! j = Some (cj, name) →
     (run_calls calls initial_world).1 !! i = Some (Ok inst) →
     (run_calls calls initial_world).1 !! j = Some (Ok inst)).
Proof.
  split.
  - intros name. rewrite run_calls_constructions.
    + destruct (_ !! name); lia.
    + intros k. cbn [initial_world _provider_instances]. by rewrite lookup_empty.
  - intros i j ci cj name inst. apply run_calls_same_instance.
Qed.

Lemma sequential_calls_construct_once_witness :
  constructions "ollama"
    (run_calls [(cfg_without_key, "ollama"); (cfg_with_key, "openrouter");
                (cfg_with_key, "ollama")] initial_world).2 ≤ 1
  ∧ (run_calls [(cfg_without_key, "ollama"); (cfg_with_key, "openrouter");
                (cfg_with_key, "ollama")] initial_world).1 !! 2
    = Some (Ok (new_OllamaProvider 0 "http://localhost:11434")).
Proof.
  split.
  - apply (sequential_calls_construct_once
             [(cfg_without_key, "ollama"); (cfg_with_key, "openrouter");
              (cfg_with_key, "ollama")]).
  - apply (proj2 (sequential_calls_construct_once
             [(cfg_without_key, "ollama"); (cfg_with_key, "openrouter");
              (cfg_with_key, "ollama")]) 0 2 cfg_without_key cfg_with_key "ollama");
      [lia|reflexivity|reflexivity|vm_compute; reflexivity].
Defined.

Local Ltac run_step :=
  cbn [run_schedule step_caller lookup list_lookup insert list_insert
       get_provider_step negb fst snd].

(** The statement-by-statement version run by a single caller is
    [get_provider]. *)
Lemma get_provider_step_refines cfg name w :
  run_schedule cfg [0; 0; 0; 0] [(name, AtNameCheck)] w
  = ([(name, Returned (get_provider cfg name w).1)], (get_provider cfg name w).2).
Proof.
  destruct (decide (name ∈ ["openrouter"; "ollama"])) as [Hn|Hn].
  2:{ rewrite get_provider_invalid by done. run_step.
      rewrite (bool_decide_eq_false_2 _ Hn). by run_step. }
  run_step. rewrite (bool_decide_eq_true_2 _ Hn). run_step.
  unfold instance_cached.
  destruct (_provider_instances w !! name) as [inst|] eqn:Hc.
  { rewrite (get_provider_cached _ _ _ inst) by done.
    rewrite bool_decide_eq_true_2 by eauto.
    unfold read_instance, dict_getitem. rewrite Hc. by run_step. }
  rewrite bool_decide_eq_false_2 by (by intros [? ?]).
  run_step. rewrite get_provider_uncached by done. unfold bind.
  destruct (String.eqb name "openrouter").
  - destruct (truthy (OPENROUTER_API_KEY cfg)); run_step; [|done].
    unfold store_new_instance, read_instance. by run_step.
  - unfold store_new_instance, read_instance. by run_step.
Qed.

(** C7, as stated, fails: two callers whose first calls for ["ollama"]
    interleave between the cache check and the store both construct an
    object, and they return different objects. *)
Lemma interleaved_first_calls_construct_twice :
  let run := run_schedule cfg_without_key [0; 1; 0; 1; 0; 0; 1; 1]
               [("ollama", AtNameCheck); ("ollama", AtNameCheck)] initial_world in
  ¬ (constructions "ollama" run.2 ≤ 1)
  ∧ run.1 = [("ollama", Returned (Ok (new_OllamaProvider 0 "http://localhost:11434")));
             ("ollama", Returned (Ok (new_OllamaProvider 1 "http://localhost:11434")))].
Proof.
  split.
  - vm_compute. lia.
  - vm_compute. reflexivity.
Qed.

(** ** One query of a provider *)

Local Ltac unfold_query :=
  unfold provider_query_model, OpenRouterProvider_query_model,
    OllamaProvider_query_model, try_except, fetch_message, bind, http_post,
    lift, ret, isinstance_Exception.

(** [query_model] of a provider never raises, and sends exactly its one
    request. *)
Lemma provider_query_model_total net self model msgs t w :
  ∃ v, provider_query_model net self model msgs t w
       = (Ok v, record_request (provider_request self model msgs t) w).
Proof.
  destruct self; unfold_query;
    destruct (net _ _) as [e|st body]; cbn [fst snd];
    repeat (case_match; simplify_eq); eauto.
Qed.

(** It consults the backend only for the answer to that request. *)
Lemma provider_query_model_ext net net' self model msgs t w :
  net (length (requests w)) (provider_request self model msgs t)
  = net' (length (requests w)) (provider_request self model msgs t) →
  provider_query_model net self model msgs t w
  = provider_query_model net' self model msgs t w.
Proof.
  intros Hnet. destruct self; unfold_query; by rewrite Hnet.
Qed.

(** A backend failure yields [None]. *)
Lemma provider_query_model_failure net self model msgs t w :
  backend_failure (net (length (requests w)) (provider_request self model msgs t)) = true →
  provider_query_model net self model msgs t w
  = (Ok None, record_request (provider_request self model msgs t) w).
Proof.
  intros Hfail. destruct self; unfold_query;
    destruct (net _ _) as [e|st body]; cbn [fst snd];
    unfold backend_failure, has_message in Hfail;
    unfold raise_for_status, response_json, getitem_str, getitem_0, get_method;
    repeat (case_match; simplify_eq); try done.
Qed.

(** ** A batch of a provider *)

Section batch.
Context (self : LLMProvider) (msgs : list Message).

Local Abbreviation req m := (provider_request self m msgs 120%Z).
Local Abbreviation tasks net models :=
  (map (λ model, provider_query_model net self model msgs 120%Z) models).

Lemma gather_queries net models w :
  ∃ rs, gather (tasks net models) w = (Ok rs, record_requests (map (λ m, req m) models) w)
        ∧ length rs = length models.
Proof.
  revert w. induction models as [|m models IH]; intros w.
  - by exists [].
  - destruct (provider_query_model_total net self m msgs 120%Z w) as [v Hv].
    destruct (IH (record_request (req m) w)) as (rs & Hrs & Hlen).
    exists (v :: rs). split; [|cbn [length]; by f_equal].
    cbn [map gather]. unfold bind. rewrite Hv.
    by rewrite Hrs.
Qed.

(** Every gathered response is the answer of a query for the model at the
    same position. *)
Lemma gather_queries_origin net models w rs w' i m v :
  gather (tasks net models) w = (Ok rs, w') →
  models !! i = Some m → rs !! i = Some v →
  ∃ w0, provider_query_model net self m msgs 120%Z w0 = (Ok v, record_request (req m) w0).
Proof.
  revert w rs i. induction models as [|m0 models IH]; intros w rs i Hg Hm Hv; [done|].
  destruct (provider_query_model_total net self m0 msgs 120%Z w) as [v0 Hv0].
  destruct (gather_queries net models (record_request (req m0) w)) as (rs0 & Hrs0 & _).
  cbn [map gather] in Hg. unfold bind in Hg. rewrite Hv0 in Hg.
  rewrite Hrs0 in Hg. unfold ret in Hg. simplify_eq.
  destruct i as [|i]; cbn in Hm, Hv; simplify_eq; eauto.
Qed.

(** Two backends that answer alike the requests for the models in [sel] give
    alike responses at the positions of those models. *)
Lemma gather_queries_agree (sel : option string → Prop) net net' models w rs rs' w1 w2 :
  (∀ m n, sel m → net n (req m) = net' n (req m)) →
  gather (tasks net models) w = (Ok rs, w1) →
  gather (tasks net' models) w = (Ok rs', w2) →
  ∀ i m, models !! i = Some m → sel m → rs !! i = rs' !! i.
Proof.
  intros Hnet. revert w rs rs'.
  induction models as [|m0 models IH]; intros w rs rs' Hg Hg' i m Hm HS; [done|].
  destruct (provider_query_model_total net self m0 msgs 120%Z w) as [v0 Hv0].
  destruct (provider_query_model_total net' self m0 msgs 120%Z w) as [v0' Hv0'].
  destruct (gather_queries net models (record_request (req m0) w)) as (rs0 & Hrs0 & _).
  destruct (gather_queries net' models (record_request (req m0) w)) as (rs0' & Hrs0' & _).
  cbn [map gather] in Hg, Hg'. unfold bind in Hg, Hg'.
  rewrite Hv0 in Hg. rewrite Hv0' in Hg'.
  rewrite Hrs0 in Hg. rewrite Hrs0' in Hg'. unfold ret in Hg, Hg'. simplify_eq.
  destruct i as [|i]; cbn in Hm |- *.
  - simplify_eq.
    rewrite (provider_query_model_ext net net') in Hv0 by eauto. congruence.
  - eapply IH; eauto.
Qed.
End batch.

(** *** The dictionary built from [zip(models, responses)] *)

Lemma dict_zip_dom {K V} `{Countable K} (ks : list K) (vs : list V) (d : gmap K V) :
  length vs = length ks →
  dom (fold_left (λ d kv, <[kv.1 := kv.2]> d) (zip ks vs) d) = list_to_set ks ∪ dom d.
Proof.
  revert vs d. induction ks as [|k ks IH]; intros [|v vs] d Hlen; simplify_eq/=.
  - set_solver.
  - rewrite IH by done. rewrite dom_insert_L. set_solver.
Qed.

Lemma dict_zip_origin {K V} `{Countable K} (ks : list K) (vs : list V) (d : gmap K V) k v :
  fold_left (λ d kv, <[kv.1 := kv.2]> d) (zip ks vs) d !! k = Some v →
  d !! k = Some v ∨ ∃ i, ks !! i = Some k ∧ vs !! i = Some v.
Proof.
  revert vs d. induction ks as [|k0 ks IH]; intros [|v0 vs] d Hk; cbn in Hk; eauto.
  apply IH in Hk as [Hk|(i & ? & ?)].
  - destruct (decide (k0 = k)) as [->|Hne].
    + rewrite lookup_insert_eq in Hk. simplify_eq. right. by exists 0.
    + rewrite lookup_insert_ne in Hk by done. by left.
  - right. by exists (S i).
Qed.

Lemma dict_zip_agree {K V} `{Countable K} (sel : K → Prop)
    (ks : list K) (vs vs' : list V) (d d' : gmap K V) :
  length vs = length ks → length vs' = length ks →
  (∀ i k, ks !! i = Some k → sel k → vs !! i = vs' !! i) →
  (∀ k, sel k → d !! k = d' !! k) →
  ∀ k, sel k →
    fold_left (λ d kv, <[kv.1 := kv.2]> d) (zip ks vs) d !! k
    = fold_left (λ d kv, <[kv.1 := kv.2]> d) (zip ks vs') d' !! k.
Proof.
  revert vs vs' d d'.
  induction ks as [|k0 ks IH]; intros [|v vs] [|v' vs'] d d' Hl Hl' Hvs Hd k HS;
    simplify_eq/=; [by apply Hd|].
  apply IH; [done|done| |  |done].
  - intros i k1 Hi HS1. apply (Hvs (S i) k1 Hi HS1).
  - intros k1 HS1. destruct (decide (k0 = k1)) as [->|Hne].
    + rewrite !lookup_insert_eq. apply (Hvs 0 k1 eq_refl HS1).
    + rewrite !lookup_insert_ne by done. by apply Hd.
Qed.

(** *** query_models_parallel of a provider *)

Lemma provider_batch_total net self models msgs w :
  ∃ results,
    provider_query_models_parallel net self models msgs w
    = (Ok results,
       record_requests (map (λ m, provider_request self m msgs 120%Z) models) w)
    ∧ dom results = list_to_set models.
Proof.
  destruct (gather_queries self msgs net models w) as (rs & Hrs & Hlen).
  exists (dict_of_pairs (zip models rs)). split.
  - unfold provider_query_models_parallel, bind. by rewrite Hrs.
  - unfold dict_of_pairs. rewrite dict_zip_dom by done. set_solver.
Qed.

Lemma provider_batch_origin net self models msgs w results w' m v :
  provider_query_models_parallel net self models msgs w = (Ok results, w') →
  results !! m = Some v →
  ∃ w0, provider_query_model net self m msgs 120%Z w0
        = (Ok v, record_request (provider_request self m msgs 120%Z) w0).
Proof.
  intros Hb Hm.
  destruct (gather_queries self msgs net models w) as (rs & Hrs & Hlen).
  unfold provider_query_models_parallel, bind in Hb. rewrite Hrs in Hb.
  unfold ret in Hb. simplify_eq.
  apply dict_zip_origin in Hm as [Hm|(i & Hi & Hv)]; [by rewrite lookup_empty in Hm|].
  eapply gather_queries_origin; eauto.
Qed.

Lemma provider_batch_agree (sel : option string → Prop) net net' self models msgs w
    results results' w1 w2 :
  (∀ m n, sel m → net n (provider_request self m msgs 120%Z)
                = net' n (provider_request self m msgs 120%Z)) →
  provider_query_models_parallel net self models msgs w = (Ok results, w1) →
  provider_query_models_parallel net' self models msgs w = (Ok results', w2) →
  ∀ m, sel m → results !! m = results' !! m.
Proof.
  intros Hnet Hb Hb'.
  destruct (gather_queries self msgs net models w) as (rs & Hrs & Hlen).
  destruct (gather_queries self msgs net' models w) as (rs' & Hrs' & Hlen').
  unfold provider_query_models_parallel, bind in Hb, Hb'.
  rewrite Hrs in Hb. rewrite Hrs' in Hb'. unfold ret in Hb, Hb'. simplify_eq.
  apply dict_zip_agree; [done|done| |done].
  eapply gather_queries_agree; eauto.
Qed.

(** ** The router: grouping *)

Lemma parse_raises_ValueError cfg s e :
  parse_model_spec cfg s = Raise e → e = ValueError (mixed_mode_message s).
Proof.
  unfold parse_model_spec, simple_mode. repeat case_match; congruence.
Qed.

Lemma group_spec_eq cfg g s w :
  group_spec cfg g s w = (Ok (groups_append (spec_key cfg s) (spec_entry cfg s) g), w).
Proof.
  unfold group_spec, try_except, bind, lift, ret, spec_key, spec_entry.
  destruct (parse_model_spec cfg s) as [pm|e] eqn:Hp; [done|].
  by rewrite (parse_raises_ValueError _ _ _ Hp).
Qed.

Lemma group_loop cfg specs g w :
  for_each specs (group_spec cfg) g w
  = (Ok (fold_left (λ g s, groups_append (spec_key cfg s) (spec_entry cfg s) g) specs g), w).
Proof.
  revert g. induction specs as [|s specs IH]; intros g; [done|].
  cbn [for_each fold_left]. unfold bind. by rewrite group_spec_eq, IH.
Qed.

(** A property of (group name, entry) that holds of what is appended holds
    of every entry of every group. *)
Lemma groups_append_Forall (P : string → string * option string → Prop) k e (G : Groups) :
  P k e →
  Forall (λ grp, Forall (P grp.1) grp.2) G →
  Forall (λ grp, Forall (P grp.1) grp.2) (groups_append k e G).
Proof.
  intros HP. induction 1 as [|[k' es] G Hes HG IH]; cbn [groups_append].
  - repeat constructor. done.
  - destruct (String.eqb k k') eqn:Hk.
    + apply String.eqb_eq in Hk as ->. constructor; [|done].
      cbn in *. apply Forall_app. split; [done|]. by constructor.
    + constructor; done.
Qed.

Lemma group_loop_Forall (P : string → string * option string → Prop) cfg specs (G : Groups) :
  (∀ s, s ∈ specs → P (spec_key cfg s) (spec_entry cfg s)) →
  Forall (λ grp, Forall (P grp.1) grp.2) G →
  Forall (λ grp, Forall (P grp.1) grp.2)
    (fold_left (λ g s, groups_append (spec_key cfg s) (spec_entry cfg s) g) specs G).
Proof.
  revert G. induction specs as [|s specs IH]; intros G HP HG; [done|].
  cbn [fold_left]. apply IH.
  - intros s' Hs'. apply HP. by right.
  - apply groups_append_Forall; [|done]. apply HP. by left.
Qed.

Lemma spec_entry_fst cfg s : (spec_entry cfg s).1 = s.
Proof. unfold spec_entry. by destruct (parse_model_spec cfg s). Qed.

(** ** The router: obtaining the providers *)

Lemma get_provider_new_instance cfg name w inst w' :
  get_provider cfg name w = (Ok inst, w') →
  _provider_instances w !! name = None →
  ∀ w0, _provider_instances w0 !! name = None →
    ∃ w0', get_provider cfg name w0 = (Ok (reidentify (length (constructed w0)) inst), w0').
Proof.
  intros Hg Hnone w0 Hnone0.
  apply get_provider_inv in Hg
    as [[_ [(? & ? & _)|(? & ? & ? & ?)]]|(i & ? & Hn & _ & _ & _ & _ & Hnew)];
    simplify_eq.
  rewrite get_provider_uncached by done. unfold bind.
  destruct Hnew as [(-> & Hk & ->)|(-> & ->)].
  - change ("openrouter" =? "openrouter")%string with true. cbv iota.
    rewrite Hk. cbn [negb]. unfold store_new_instance, read_instance, dict_getitem.
    cbn [_provider_instances]. rewrite lookup_insert_eq. eauto.
  - change ("ollama" =? "openrouter")%string with false. cbv iota.
    unfold store_new_instance, read_instance, dict_getitem.
    cbn [_provider_instances]. rewrite lookup_insert_eq. eauto.
Qed.

Lemma hands_out_stable cfg p R k w r w' :
  id_blind R → hands_out cfg p R w →
  get_provider cfg k w = (r, w') →
  hands_out cfg p R w'.
Proof.
  intros Hblind Hw Hg inst w2 Hp.
  pose proof Hg as Hg0.
  apply get_provider_inv in Hg as [[-> _]|(i & -> & Hn & Hnone & Hreg & _)]; [eauto|].
  destruct (decide (k = p)) as [->|Hne].
  - destruct (get_provider_ok_cached _ _ _ _ _ Hg0) as [_ Hc].
    rewrite (get_provider_cached _ _ _ i) in Hp by done. simplify_eq. eauto.
  - assert (_provider_instances w' !! p = _provider_instances w !! p) as Hsame.
    { rewrite Hreg. by apply lookup_insert_ne. }
    pose proof Hp as Hp0.
    apply get_provider_inv in Hp
      as [[-> [(? & ? & _)|(? & ? & Hv & Hc)]]
         |(i' & ? & Hv & Hnone' & _ & _ & _ & Hnew)]; simplify_eq.
    + rewrite Hsame in Hc. eapply Hw. by apply get_provider_cached.
    + rewrite Hsame in Hnone'.
      destruct (get_provider_new_instance _ _ _ _ _ Hp0 ltac:(by rewrite Hsame) w Hnone')
        as [w0' Hw0].
      apply Hw in Hw0. apply (Hblind _ (length (constructed w'))) in Hw0.
      by destruct Hnew as [(_ & _ & ->)|(_ & ->)].
Qed.

Lemma mark_failed_lookup l (ar : gmap string (option QueryResult)) s v :
  mark_failed l ar !! s = Some v →
  ar !! s = Some v ∨ (v = None ∧ s ∈ l.*1).
Proof.
  unfold mark_failed. revert ar. induction l as [|e l IH]; intros ar Hs; cbn in *; [by left|].
  apply IH in Hs as [Hs|[-> Hs]].
  - destruct (decide (e.1 = s)) as [<-|Hne].
    + rewrite lookup_insert_eq in Hs. simplify_eq. right. split; [done|]. by left.
    + rewrite lookup_insert_ne in Hs by done. by left.
  - right. split; [done|]. by right.
Qed.

Lemma mark_failed_other l (ar : gmap string (option QueryResult)) s :
  s ∉ l.*1 → mark_failed l ar !! s = ar !! s.
Proof.
  unfold mark_failed. revert ar. induction l as [|e l IH]; intros ar Hs; cbn in *; [done|].
  apply not_elem_of_cons in Hs as [Hne Hs].
  rewrite IH by done. by rewrite lookup_insert_ne.
Qed.

(** One round of the second loop: either the group is marked failed and
    nothing else changes, or the registry hands out a provider and a task is
    queued. *)
Lemma plan_group_step cfg st grp w :
  ∃ st' w',
    plan_group cfg st grp w = (Ok st', w') ∧ requests w' = requests w ∧
    ((w' = w ∧ st'.2 = st.2 ∧ st'.1 = mark_failed grp.2 st.1 ∧
      (grp.1 = "_invalid" ∨ ∃ e, get_provider cfg grp.1 w = (Raise e, w)))
     ∨
     (∃ inst, grp.1 ≠ "_invalid" ∧ get_provider cfg grp.1 w = (Ok inst, w') ∧
        st'.1 = st.1 ∧
        st'.2 = st.2 ++ [{| prov := inst; model_ids_list := map snd grp.2;
                            specs_list := grp.2 |}])).
Proof.
  unfold plan_group. destruct (String.eqb grp.1 "_invalid") eqn:Hinv.
  { apply String.eqb_eq in Hinv. do 2 eexists. split; [done|]. split; [done|].
    left. eauto. }
  apply String.eqb_neq in Hinv.
  unfold bind, try_except, ret.
  destruct (get_provider cfg grp.1 w) as [r w'] eqn:Hg.
  pose proof Hg as Hg0.
  apply get_provider_inv in Hg
    as [[-> [(msg & -> & _)|(inst & -> & _)]]|(inst & -> & _ & _ & _ & _ & Hreq & _)];
    cbn [isinstance_ValueError].
  - do 2 eexists. split; [done|]. split; [done|]. left. eauto 10.
  - do 2 eexists. split; [done|]. split; [done|]. right. eauto 10.
  - do 2 eexists. split; [done|]. split; [done|]. right. eauto 10.
Qed.

Lemma plan_loop cfg p R (G : Groups) st w :
  id_blind R → hands_out cfg p R w →
  ∃ st' w' new,
    for_each G (plan_group cfg) st w = (Ok st', w') ∧
    requests w' = requests w ∧
    hands_out cfg p R w' ∧
    st'.2 = st.2 ++ new ∧
    Forall (λ t, ∃ grp, grp ∈ G ∧ grp.1 ≠ "_invalid" ∧ specs_list t = grp.2 ∧
                   model_ids_list t = map snd grp.2 ∧ (grp.1 = p → R (prov t))) new ∧
    (∀ s v, st'.1 !! s = Some v →
       st.1 !! s = Some v ∨ (v = None ∧ ∃ grp, grp ∈ G ∧ s ∈ grp.2.*1)).
Proof.
  intros Hblind. revert st w. induction G as [|grp G IH]; intros st w Hw.
  { exists st, w, []. split_and!; try done. - by rewrite app_nil_r. - eauto. }
  destruct (plan_group_step cfg st grp w) as (st1 & w1 & Hstep & Hreq1 & Hcase).
  assert (hands_out cfg p R w1) as Hw1.
  { destruct Hcase as [(-> & _)|(inst & _ & Hg & _)]; [done|].
    eapply hands_out_stable; eauto. }
  destruct (IH st1 w1 Hw1) as (st' & w' & new & Hloop & Hreq & Hw' & Htasks & Hnew & Hres).
  cbn [for_each]. unfold bind. rewrite Hstep.
  destruct Hcase as [(-> & Ht1 & Hr1 & _)|(inst & Hinv & Hg & Hr1 & Ht1)].
  - exists st', w', new. split_and!; try done.
    + congruence.
    + eapply Forall_impl; [exact Hnew|]. intros t (g & ? & ?). exists g. split; [by right|done].
    + intros s v Hs. apply Hres in Hs as [Hs|(-> & g & ? & ?)].
      * rewrite Hr1 in Hs. apply mark_failed_lookup in Hs as [?|[-> ?]]; [by left|].
        right. split; [done|]. exists grp. split; [by left|done].
      * right. split; [done|]. exists g. split; [by right|done].
  - exists st', w',
      ({| prov := inst; model_ids_list := map snd grp.2; specs_list := grp.2 |} :: new).
    split_and!; try done.
    + congruence.
    + rewrite Htasks, Ht1. by rewrite <- app_assoc.
    + constructor.
      * exists grp. split_and!; try done; [by left|]. intros <-. eapply Hw. exact Hg.
      * eapply Forall_impl; [exact Hnew|]. intros t (g & ? & ?). exists g.
        split; [by right|done].
    + intros s v Hs. apply Hres in Hs as [Hs|(-> & g & ? & ?)].
      * left. congruence.
      * right. split; [done|]. exists g. split; [by right|done].
Qed.

(** ** The router: running the batches *)

Section comprehension.
Context (results : gmap (option string) (option QueryResult)).

Local Abbreviation body results :=
  (λ (d : gmap string (option QueryResult)) (sm : string * option string),
     v <- lift (dict_getitem results sm.2) ;; ret (<[sm.1 := v]> d)).

(** When [results] has every model id of the entries, the comprehension
    does not raise; each value it stores is [results[model_id]] of an
    entry with that specifier. *)
Lemma comprehension_total (l : list (string * option string)) d w :
  (∀ sm, sm ∈ l → is_Some (results !! sm.2)) →
  ∃ d', for_each l (body results) d w = (Ok d', w) ∧
        dom d' = list_to_set l.*1 ∪ dom d ∧
        (∀ s v, d' !! s = Some v →
           d !! s = Some v ∨ ∃ m, (s, m) ∈ l ∧ results !! m = Some v).
Proof.
  revert d. induction l as [|[s0 m0] l IH]; intros d Hin.
  { exists d. split; [done|]. split; [set_solver|eauto]. }
  destruct (Hin (s0, m0) ltac:(by left)) as [v0 Hv0]. cbn in Hv0.
  destruct (IH (<[s0 := v0]> d)) as (d' & Hd' & Hdom & Hlook).
  { intros sm Hsm. apply Hin. by right. }
  exists d'. split; [|split].
  - cbn [for_each]. unfold bind at 1. unfold bind, lift, ret, dict_getitem.
    cbn [fst snd]. by rewrite Hv0.
  - rewrite Hdom, dom_insert_L. set_solver.
  - intros s v Hs. apply Hlook in Hs as [Hs|(m & ? & ?)].
    + destruct (decide (s0 = s)) as [->|Hne].
      * rewrite lookup_insert_eq in Hs. simplify_eq. right. exists m0. split; [by left|done].
      * rewrite lookup_insert_ne in Hs by done. by left.
    + right. exists m. split; [by right|done].
Qed.
End comprehension.

Lemma comprehension_agree
    (results results' : gmap (option string) (option QueryResult))
    (l : list (string * option string))
    (d d' e e' : gmap string (option QueryResult)) (w w1 w2 : World) (s : string) :
  (∀ m, (s, m) ∈ l → results !! m = results' !! m) →
  d !! s = d' !! s →
  for_each l (λ d sm, v <- lift (dict_getitem results sm.2) ;; ret (<[sm.1 := v]> d)) d w
    = (Ok e, w1) →
  for_each l (λ d sm, v <- lift (dict_getitem results' sm.2) ;; ret (<[sm.1 := v]> d)) d' w
    = (Ok e', w2) →
  e !! s = e' !! s.
Proof.
  revert d d'. induction l as [|[s0 m0] l IH]; intros d d' Hres Hd He He'.
  { cbn in He, He'. unfold ret in *. by simplify_eq. }
  cbn [for_each] in He, He'. unfold bind, lift, ret, dict_getitem in He, He'.
  cbn [fst snd] in He, He'.
  destruct (results !! m0) as [v0|] eqn:Hv0; [|done].
  destruct (results' !! m0) as [v0'|] eqn:Hv0'; [|done].
  eapply IH; [| |exact He|exact He'].
  - intros m Hm. apply Hres. by right.
  - destruct (decide (s0 = s)) as [->|Hne].
    + rewrite !lookup_insert_eq. rewrite <- Hv0, <- Hv0'. apply Hres. by left.
    + by rewrite !lookup_insert_ne.
Qed.

Lemma batch_task net msgs t w :
  model_ids_list t = map snd (specs_list t) →
  ∃ d,
    query_provider_batch net msgs t w
    = (Ok d, record_requests
               (map (λ m, provider_request (prov t) m msgs 120%Z) (model_ids_list t)) w) ∧
    dom d = list_to_set (specs_list t).*1 ∧
    (∀ s v, d !! s = Some v →
       ∃ m w0, (s, m) ∈ specs_list t ∧
         provider_query_model net (prov t) m msgs 120%Z w0
         = (Ok v, record_request (provider_request (prov t) m msgs 120%Z) w0)).
Proof.
  intros Hids.
  destruct (provider_batch_total net (prov t) (model_ids_list t) msgs w)
    as (results & Hres & Hdom).
  destruct (comprehension_total results (specs_list t) ∅
              (record_requests
                 (map (λ m, provider_request (prov t) m msgs 120%Z) (model_ids_list t)) w))
    as (d & Hd & Hdomd & Hlook).
  { intros sm Hsm. apply elem_of_dom. rewrite Hdom, Hids.
    apply elem_of_list_to_set. apply list_elem_of_fmap. by exists sm. }
  exists d. split; [|split].
  - unfold query_provider_batch, bind. by rewrite Hres.
  - rewrite Hdomd. set_solver.
  - intros s v Hs. apply Hlook in Hs as [Hs|(m & Hm & Hv)]; [by rewrite lookup_empty in Hs|].
    destruct (provider_batch_origin _ _ _ _ _ _ _ _ _ Hres Hv) as [w0 Hw0]. eauto.
Qed.

Lemma batch_task_agree net net' msgs t w d d' w1 w2 s :
  (∀ m n, (s, m) ∈ specs_list t →
     net n (provider_request (prov t) m msgs 120%Z)
     = net' n (provider_request (prov t) m msgs 120%Z)) →
  query_provider_batch net msgs t w = (Ok d, w1) →
  query_provider_batch net' msgs t w = (Ok d', w2) →
  d !! s = d' !! s.
Proof.
  intros Hnet Hd Hd'.
  destruct (provider_batch_total net (prov t) (model_ids_list t) msgs w)
    as (results & Hres & _).
  destruct (provider_batch_total net' (prov t) (model_ids_list t) msgs w)
    as (results' & Hres' & _).
  unfold query_provider_batch, bind in Hd, Hd'. rewrite Hres in Hd. rewrite Hres' in Hd'.
  eapply comprehension_agree; [|done|exact Hd|exact Hd'].
  intros m Hm.
  eapply (provider_batch_agree (λ m, (s, m) ∈ specs_list t)); eauto.
Qed.

(** The state after the batches of a list of tasks. *)
Lemma gather_tasks net msgs tasks w :
  Forall (λ t, model_ids_list t = map snd (specs_list t)) tasks →
  ∃ ds,
    gather (map (query_provider_batch net msgs) tasks) w
    = (Ok ds,
       fold_left
         (λ w t, record_requests
                   (map (λ m, provider_request (prov t) m msgs 120%Z) (model_ids_list t)) w)
         tasks w) ∧
    Forall2
      (λ t d,
         dom d = list_to_set (specs_list t).*1 ∧
         ∀ s v, d !! s = Some v →
           ∃ m w0, (s, m) ∈ specs_list t ∧
             provider_query_model net (prov t) m msgs 120%Z w0
             = (Ok v, record_request (provider_request (prov t) m msgs 120%Z) w0))
      tasks ds.
Proof.
  intros Hall. revert w. induction Hall as [|t tasks Ht Hall IH]; intros w.
  { exists []. split; [done|constructor]. }
  destruct (batch_task net msgs t w Ht) as (d & Hd & Hdom & Hlook).
  destruct (IH (record_requests
                  (map (λ m, provider_request (prov t) m msgs 120%Z) (model_ids_list t)) w))
    as (ds & Hds & Hrel).
  exists (d :: ds). split; [|by constructor].
  cbn [map gather fold_left]. unfold bind. by rewrite Hd, Hds.
Qed.

Lemma gather_tasks_agree net net' msgs tasks w ds ds' w1 w2 s :
  Forall (λ t, model_ids_list t = map snd (specs_list t)) tasks →
  Forall (λ t, ∀ m n, (s, m) ∈ specs_list t →
                 net n (provider_request (prov t) m msgs 120%Z)
                 = net' n (provider_request (prov t) m msgs 120%Z)) tasks →
  gather (map (query_provider_batch net msgs) tasks) w = (Ok ds, w1) →
  gather (map (query_provider_batch net' msgs) tasks) w = (Ok ds', w2) →
  Forall2 (λ d d', d !! s = d' !! s) ds ds'.
Proof.
  intros Hids Hnet. revert w ds ds'.
  induction tasks as [|t tasks IH]; intros w ds ds' Hg Hg'.
  { cbn in Hg, Hg'. unfold ret in *. simplify_eq. constructor. }
  apply Forall_cons in Hids as [Ht Hids]. apply Forall_cons in Hnet as [Hn Hnet].
  destruct (batch_task net msgs t w Ht) as (d & Hd & _).
  destruct (batch_task net' msgs t w Ht) as (d' & Hd' & _).
  destruct (gather_tasks net msgs tasks
              (record_requests
                 (map (λ m, provider_request (prov t) m msgs 120%Z) (model_ids_list t)) w)
              Hids) as (ds0 & Hds0 & _).
  destruct (gather_tasks net' msgs tasks
              (record_requests
                 (map (λ m, provider_request (prov t) m msgs 120%Z) (model_ids_list t)) w)
              Hids) as (ds0' & Hds0' & _).
  cbn [map gather] in Hg, Hg'. unfold bind in Hg, Hg'.
  rewrite Hd, Hds0 in Hg. rewrite Hd', Hds0' in Hg'. unfold ret in Hg, Hg'. simplify_eq.
  constructor.
  - eapply batch_task_agree; eauto.
  - eapply IH; eauto.
Qed.

(** *** Merging and completing *)

Lemma merge_lookup ds (ar : gmap string (option QueryResult)) s v :
  merge_results ds ar !! s = Some v →
  ar !! s = Some v ∨ ∃ d, d ∈ ds ∧ d !! s = Some v.
Proof.
  unfold merge_results. revert ar. induction ds as [|d ds IH]; intros ar Hs; cbn in Hs.
  { by left. }
  apply IH in Hs as [Hs|(d' & ? & ?)].
  - apply lookup_union_Some_raw in Hs as [Hs|[_ Hs]].
    + right. exists d. split; [by left|done].
    + by left.
  - right. exists d'. split; [by right|done].
Qed.

Lemma merge_agree ds ds' (ar ar' : gmap string (option QueryResult)) s :
  Forall2 (λ d d', d !! s = d' !! s) ds ds' →
  ar !! s = ar' !! s →
  merge_results ds ar !! s = merge_results ds' ar' !! s.
Proof.
  unfold merge_results. intros Hds. revert ar ar'.
  induction Hds as [|d d' ds ds' Hd Hds IH]; intros ar ar' Har; [done|].
  cbn [fold_left]. apply IH. rewrite !lookup_union. by rewrite Hd, Har.
Qed.

Lemma fill_lookup specs (ar : gmap string (option QueryResult)) s :
  fill_missing specs ar !! s
  = match ar !! s with
    | Some v => Some v
    | None => if decide (s ∈ specs) then Some None else None
    end.
Proof.
  unfold fill_missing. revert ar. induction specs as [|x specs IH]; intros ar.
  { cbn. destruct (ar !! s); [done|]. by rewrite decide_False by set_solver. }
  cbn [fold_left]. rewrite IH. clear IH.
  destruct (ar !! x) as [vx|] eqn:Hx.
  - rewrite bool_decide_eq_true_2 by eauto.
    destruct (ar !! s) eqn:Hs; [done|].
    assert (x ≠ s) by congruence.
    destruct (decide (s ∈ specs)).
    + by rewrite decide_True by set_solver.
    + by rewrite decide_False by set_solver.
  - rewrite bool_decide_eq_false_2 by (by intros [? ?]).
    destruct (decide (x = s)) as [->|Hne].
    + rewrite lookup_insert_eq, Hx. by rewrite decide_True by set_solver.
    + rewrite lookup_insert_ne by done.
      destruct (ar !! s) eqn:Hs; [done|].
      destruct (decide (s ∈ specs)).
      * by rewrite decide_True by set_solver.
      * by rewrite decide_False by set_solver.
Qed.

Lemma fill_dom specs (ar : gmap string (option QueryResult)) :
  dom (fill_missing specs ar) = list_to_set specs ∪ dom ar.
Proof.
  apply set_eq. intros s. rewrite elem_of_union, !elem_of_dom, elem_of_list_to_set.
  rewrite fill_lookup. destruct (ar !! s) eqn:Hs.
  - split; eauto.
  - destruct (decide (s ∈ specs)); split; intros Hx; eauto;
      try (destruct Hx as [?|[? ?]]; done); by destruct Hx.
Qed.

(** ** The router: query_models_parallel as a whole *)

Lemma run_tasks_or_skip net msgs (tasks : list Task)
    (ar : gmap string (option QueryResult)) w :
  (match tasks with
   | [] => ret ar
   | _ :: _ =>
       provider_results <- gather (map (query_provider_batch net msgs) tasks) ;;
       ret (merge_results provider_results ar)
   end) w
  = (provider_results <- gather (map (query_provider_batch net msgs) tasks) ;;
     ret (merge_results provider_results ar)) w.
Proof. by destruct tasks. Qed.

Lemma groups_entries cfg (specs : list string) :
  Forall (λ grp : string * list (string * option string),
            Forall (λ e, e = spec_entry cfg e.1 ∧ spec_key cfg e.1 = grp.1 ∧ e.1 ∈ specs)
                   grp.2)
    (fold_left (λ g s, groups_append (spec_key cfg s) (spec_entry cfg s) g) specs []).
Proof.
  apply (group_loop_Forall
           (λ k e, e = spec_entry cfg e.1 ∧ spec_key cfg e.1 = k ∧ e.1 ∈ specs));
    [|constructor].
  intros s Hs. by rewrite !spec_entry_fst.
Qed.

Lemma group_entry_spec cfg (specs : list string) (G : Groups) grp s m :
  Forall (λ grp : string * list (string * option string),
            Forall (λ e, e = spec_entry cfg e.1 ∧ spec_key cfg e.1 = grp.1 ∧ e.1 ∈ specs)
                   grp.2) G →
  grp ∈ G → (s, m) ∈ grp.2 →
  (s, m) = spec_entry cfg s ∧ spec_key cfg s = grp.1 ∧ s ∈ specs.
Proof.
  intros HG Hgrp Hsm.
  rewrite Forall_forall in HG. specialize (HG grp Hgrp).
  rewrite Forall_forall in HG. apply (HG (s, m) Hsm).
Qed.

Lemma valid_key_parses cfg s m k :
  (s, m) = spec_entry cfg s → spec_key cfg s = k → k ≠ "_invalid" →
  ∃ mid, parse_model_spec cfg s = Ok (k, mid) ∧ m = Some mid.
Proof.
  unfold spec_entry, spec_key. destruct (parse_model_spec cfg s) as [[k' mid]|e].
  - intros ? <- _. simplify_eq. eauto.
  - intros _ <- Hk. done.
Qed.

(** What [query_models_parallel] does, for every input and state: it returns
    normally; the keys of the result are the input specifiers; and every
    entry that is not [None] is what the provider of that specifier returned
    to a query for the model id of that specifier.  [R] is any
    identity-blind property the registry's provider for [p] is known to
    have. *)
Lemma query_models_parallel_master cfg net specs msgs w p R :
  id_blind R → hands_out cfg p R w →
  ∃ r w',
    query_models_parallel cfg net specs msgs w = (Ok r, w') ∧
    dom r = list_to_set specs ∧
    (∀ s qr, r !! s = Some (Some qr) →
       ∃ k mid inst w0,
         parse_model_spec cfg s = Ok (k, mid) ∧ (k = p → R inst) ∧
         provider_query_model net inst (Some mid) msgs 120%Z w0
         = (Ok (Some qr),
            record_request (provider_request inst (Some mid) msgs 120%Z) w0)).
Proof.
  intros Hblind Hw.
  pose proof (groups_entries cfg specs) as HG.
  set (G := fold_left _ specs []) in HG.
  destruct (plan_loop cfg p R G (∅, []) w Hblind Hw)
    as (st & w1 & new & Hplan & _ & _ & Htasks & Hnew & Hmarked).
  cbn [fst snd app] in Htasks, Hmarked.
  assert (Forall (λ t, model_ids_list t = map snd (specs_list t)) st.2) as Hids.
  { rewrite Htasks. eapply Forall_impl; [exact Hnew|].
    intros t (grp & _ & _ & -> & -> & _). done. }
  destruct (gather_tasks net msgs st.2 w1 Hids) as (ds & Hds & Hrel).
  eexists (fill_missing specs (merge_results ds st.1)), _.
  split; [|split].
  - unfold query_models_parallel. unfold bind at 1. rewrite group_loop.
    fold G. unfold bind at 1. rewrite Hplan.
    unfold bind at 1. rewrite run_tasks_or_skip. unfold bind at 1.
    rewrite Hds. reflexivity.
  - rewrite fill_dom. apply set_eq. intros s.
    rewrite elem_of_union, elem_of_list_to_set, elem_of_dom.
    split; [|by left]. intros [Hs|[v Hs]]; [done|].
    apply merge_lookup in Hs as [Hs|(d & Hd & Hs)].
    + apply Hmarked in Hs as [Hs|(_ & grp & Hgrp & Hin)]; [by rewrite lookup_empty in Hs|].
      apply list_elem_of_fmap in Hin as ([s' m] & -> & Hin).
      by destruct (group_entry_spec _ _ _ _ _ _ HG Hgrp Hin) as (_ & _ & ?).
    + apply list_elem_of_lookup in Hd as [i Hi].
      destruct (Forall2_lookup_r _ _ _ _ _ Hrel Hi) as (t & Ht & Hdom & _).
      assert (s ∈ dom d) as Hsd by (apply elem_of_dom; eauto).
      rewrite Hdom in Hsd. apply elem_of_list_to_set in Hsd.
      apply list_elem_of_fmap in Hsd as ([s' m] & -> & Hin).
      rewrite Htasks in Ht.
      rewrite Forall_forall in Hnew.
      destruct (Hnew t) as (grp & Hgrp & _ & Hspecs & _).
      { apply list_elem_of_lookup. eauto. }
      rewrite Hspecs in Hin.
      by destruct (group_entry_spec _ _ _ _ _ _ HG Hgrp Hin) as (_ & _ & ?).
  - intros s qr Hs. rewrite fill_lookup in Hs.
    destruct (merge_results ds st.1 !! s) as [v|] eqn:Hm;
      [|by destruct (decide (s ∈ specs))].
    injection Hs as ->.
    apply merge_lookup in Hm as [Hm|(d & Hd & Hm)].
    { apply Hmarked in Hm as [Hm|(? & _)]; [by rewrite lookup_empty in Hm|done]. }
    apply list_elem_of_lookup in Hd as [i Hi].
    destruct (Forall2_lookup_r _ _ _ _ _ Hrel Hi) as (t & Ht & _ & Horigin).
    destruct (Horigin _ _ Hm) as (m & w0 & Hin & Hq).
    rewrite Htasks in Ht. rewrite Forall_forall in Hnew.
    destruct (Hnew t) as (grp & Hgrp & Hvalid & Hspecs & _ & HR).
    { apply list_elem_of_lookup. eauto. }
    rewrite Hspecs in Hin.
    destruct (group_entry_spec _ _ _ _ _ _ HG Hgrp Hin) as (Hentry & Hkey & _).
    destruct (valid_key_parses _ _ _ _ Hentry Hkey Hvalid) as (mid & Hparse & ->).
    exists grp.1, mid, (prov t), w0. split_and!; done.
Qed.

(** C10.  On the empty list [query_models_parallel] returns the empty
    dictionary and leaves the state as it was: no provider object is
    constructed, the registry is not touched and no request is sent. *)
Theorem empty_list_empty_result (cfg : Config) (net : Backend)
    (msgs : list Message) (w : World) :
  query_models_parallel cfg net [] msgs w = (Ok ∅, w).
Proof. reflexivity. Qed.

(** C1.  For every list of specifiers (so for every non-empty one), every
    message list, every backend behaviour and every state,
    [query_models_parallel] returns a dictionary whose keys are exactly the
    distinct input specifiers: each occurs once, none is missing and there
    is no other key. *)
Theorem result_keys_are_the_specifiers (cfg : Config) (net : Backend)
    (specs : list string) (msgs : list Message) (w : World) :
  ∃ r w',
    query_models_parallel cfg net specs msgs w = (Ok r, w') ∧
    dom r = list_to_set specs ∧
    size r = length (remove_dups specs) ∧
    (∀ s, s ∈ specs ↔ is_Some (r !! s)).
Proof.
  destruct (query_models_parallel_master cfg net specs msgs w "" (λ _, True))
    as (r & w' & Hrun & Hdom & _); [done|done|].
  exists r, w'. split_and!; try done.
  - rewrite <- size_dom, Hdom.
    assert (list_to_set specs =@{gset string} list_to_set (remove_dups specs)) as ->.
    { apply set_eq. intros x. by rewrite !elem_of_list_to_set, elem_of_remove_dups. }
    apply size_list_to_set, NoDup_remove_dups.
  - intros s. rewrite <- elem_of_dom, Hdom. by rewrite elem_of_list_to_set.
Qed.

(** ** Failures become None *)

Lemma provider_request_reidentify inst j m msgs t :
  provider_request (reidentify j inst) m msgs t = provider_request inst m msgs t.
Proof. by destruct inst. Qed.

Lemma get_provider_requests cfg name w r w' :
  get_provider cfg name w = (r, w') → requests w' = requests w.
Proof.
  intros Hg. by apply get_provider_inv in Hg as [[-> _]|(? & _ & _ & _ & _ & _ & ? & _)].
Qed.

Lemma query_models_parallel_total cfg net specs msgs w :
  ∃ r w', query_models_parallel cfg net specs msgs w = (Ok r, w')
          ∧ dom r = list_to_set specs.
Proof.
  destruct (query_models_parallel_master cfg net specs msgs w "" (λ _, True))
    as (r & w' & Hrun & Hdom & _); [done|done|]. eauto.
Qed.

(** An entry is [None] when the specifier does not parse, and when it parses
    but every provider the registry can hand out for it fails on its model
    id; the latter holds in particular when the registry hands out none. *)
Lemma entry_is_None cfg net specs msgs w r w' s :
  query_models_parallel cfg net specs msgs w = (Ok r, w') →
  s ∈ specs →
  (∀ p mid, parse_model_spec cfg s = Ok (p, mid) →
     hands_out cfg p
       (λ inst, ∀ n, backend_failure
                       (net n (provider_request inst (Some mid) msgs 120%Z)) = true) w) →
  r !! s = Some None.
Proof.
  intros Hrun Hs Hfail.
  destruct (parse_model_spec cfg s) as [[p mid]|e] eqn:Hparse.
  - destruct (query_models_parallel_master cfg net specs msgs w p
                (λ inst, ∀ n, backend_failure
                   (net n (provider_request inst (Some mid) msgs 120%Z)) = true))
      as (r0 & w0' & Hrun0 & Hdom & Horigin).
    { intros inst j HR n. rewrite provider_request_reidentify. apply HR. }
    { by apply Hfail. }
    rewrite Hrun in Hrun0. simplify_eq.
    assert (is_Some (r0 !! s)) as [[qr|] Hv]; [|exfalso|done].
    { apply elem_of_dom. rewrite Hdom. by apply elem_of_list_to_set. }
    destruct (Horigin _ _ Hv) as (k & mid' & inst & w0 & Hp & HR & Hq).
    rewrite Hparse in Hp. injection Hp as <- <-.
    specialize (HR eq_refl (length (requests w0))).
    rewrite (provider_query_model_failure _ _ _ _ _ _ HR) in Hq. done.
  - destruct (query_models_parallel_master cfg net specs msgs w "" (λ _, True))
      as (r0 & w0' & Hrun0 & Hdom & Horigin); [done|done|].
    rewrite Hrun in Hrun0. simplify_eq.
    assert (is_Some (r0 !! s)) as [[qr|] Hv]; [|exfalso|done].
    { apply elem_of_dom. rewrite Hdom. by apply elem_of_list_to_set. }
    destruct (Horigin _ _ Hv) as (k & mid' & inst & w0 & Hp & _). congruence.
Qed.

Lemma query_model_total cfg net s msgs t w :
  ∃ v w',
    query_model cfg net s msgs t w = (Ok v, w') ∧
    match parse_model_spec cfg s with
    | Raise _ => v = None
    | Ok pm =>
        (∀ e w0, get_provider cfg pm.1 w = (Raise e, w0) → v = None) ∧
        (∀ inst w0, get_provider cfg pm.1 w = (Ok inst, w0) →
           backend_failure
             (net (length (requests w)) (provider_request inst (Some pm.2) msgs t)) = true →
           v = None)
    end.
Proof.
  unfold query_model, try_except, bind, lift, isinstance_Exception.
  destruct (parse_model_spec cfg s) as [pm|e].
  2:{ exists None, w. split; [|done]. by destruct (isinstance_ValueError e). }
  destruct (get_provider cfg pm.1 w) as [[inst|e] w1] eqn:Hg.
  - destruct (provider_query_model_total net inst (Some pm.2) msgs t w1) as [v Hv].
    rewrite Hv. eexists _, _. split; [done|]. split; [done|].
    intros inst' w0 ? Hfail. simplify_eq.
    rewrite <- (get_provider_requests _ _ _ _ _ Hg) in Hfail.
    rewrite (provider_query_model_failure _ _ _ _ _ _ Hfail) in Hv. congruence.
  - exists None, w1. split; [by destruct (isinstance_ValueError e)|]. split; [done|].
    intros ? ? ?. simplify_eq.
Qed.

(** C2.  Neither routing function raises, whatever the input, the state and
    the behaviour of the backends: each returns normally.  A specifier that
    does not parse, one whose provider cannot be obtained, and one whose
    backend fails the requests for its model id each come out as [None]. *)
Theorem failures_degrade_to_None (cfg : Config) (net : Backend)
    (msgs : list Message) (w : World) :
  (∀ specs, ∃ r w',
     query_models_parallel cfg net specs msgs w = (Ok r, w') ∧
     ∀ s, s ∈ specs →
       match parse_model_spec cfg s with
       | Raise _ => r !! s = Some None
       | Ok pm =>
           (∀ e w0, get_provider cfg pm.1 w = (Raise e, w0) → r !! s = Some None) ∧
           (∀ inst w0, get_provider cfg pm.1 w = (Ok inst, w0) →
              (∀ n, backend_failure
                      (net n (provider_request inst (Some pm.2) msgs 120%Z)) = true) →
              r !! s = Some None)
       end)
  ∧
  (∀ s timeout, ∃ v w',
     query_model cfg net s msgs timeout w = (Ok v, w') ∧
     match parse_model_spec cfg s with
     | Raise _ => v = None
     | Ok pm =>
         (∀ e w0, get_provider cfg pm.1 w = (Raise e, w0) → v = None) ∧
         (∀ inst w0, get_provider cfg pm.1 w = (Ok inst, w0) →
            backend_failure
              (net (length (requests w))
                   (provider_request inst (Some pm.2) msgs timeout)) = true →
            v = None)
     end).
Proof.
  split; [|intros s t; apply query_model_total].
  intros specs.
  destruct (query_models_parallel_total cfg net specs msgs w) as (r & w' & Hrun & _).
  exists r, w'. split; [done|]. intros s Hs.
  destruct (parse_model_spec cfg s) as [[p mid]|e] eqn:Hparse; cbn [fst snd].
  - split.
    + intros e w0 Hg. eapply entry_is_None; [done..|].
      intros p' mid' Hp' inst w1 Hg'. rewrite Hparse in Hp'. injection Hp' as <- <-.
      congruence.
    + intros inst w0 Hg Hfail. eapply entry_is_None; [done..|].
      intros p' mid' Hp' inst' w1 Hg'. rewrite Hparse in Hp'. injection Hp' as <- <-.
      rewrite Hg in Hg'. by injection Hg' as <- <-.
  - eapply entry_is_None; [done..|]. intros p mid ?. congruence.
Qed.

Lemma failures_degrade_to_None_witness :
  ∃ r w',
    query_models_parallel cfg_without_key net_mistral_down
      ["openrouter:openai/gpt-4o"; "mistral:latest"; "llama3.1:8b"] [] initial_world
    = (Ok r, w')
    ∧ r !! "openrouter:openai/gpt-4o" = Some None
    ∧ r !! "mistral:latest" = Some None.
Proof.
  destruct (failures_degrade_to_None cfg_without_key net_mistral_down [] initial_world)
    as [Hbatch _].
  destruct (Hbatch ["openrouter:openai/gpt-4o"; "mistral:latest"; "llama3.1:8b"])
    as (r & w' & Hrun & Hentries).
  exists r, w'. split; [exact Hrun|]. split.
  - apply (proj1 (Hentries "openrouter:openai/gpt-4o" ltac:(set_solver))
             (ValueError missing_key_message) initial_world).
    reflexivity.
  - apply (proj2 (Hentries "mistral:latest" ltac:(set_solver))
             (new_OllamaProvider 0 "http://localhost:11434")
             (get_provider cfg_without_key "ollama" initial_world).2).
    + reflexivity.
    + intros n. reflexivity.
Defined.

(** ** What a successful query returns *)

(** C5, at the input where the code departs from it.  A 200 response whose
    message object has no [content] member makes both providers return a
    dictionary, not [None], whose [content] is [None]: [message.get] does
    not require the member. *)
Lemma success_with_null_content :
  (provider_query_model net_without_content (new_OpenRouterProvider 0 "sk-or-v1-k")
     (Some "openai/gpt-4o") [] 120%Z initial_world).1
  = Ok (Some {| content := JNull; reasoning_details := JNull |})
  ∧
  (provider_query_model net_without_content (new_OllamaProvider 0 "http://localhost:11434")
     (Some "llama3.1:8b") [] 120%Z initial_world).1
  = Ok (Some {| content := JNull; reasoning_details := JNull |}).
Proof. split; reflexivity. Qed.

(** ** One backend's answers do not reach another specifier's entry *)

(** The stages of [query_models_parallel]: once the second loop has produced
    [st], the batches run and the result is the merged and completed
    dictionary. *)
Lemma query_models_parallel_stages cfg net specs msgs w st w1 :
  for_each (fold_left (λ g s, groups_append (spec_key cfg s) (spec_entry cfg s) g) specs [])
    (plan_group cfg) (∅, []) w = (Ok st, w1) →
  Forall (λ t, model_ids_list t = map snd (specs_list t)) st.2 →
  ∃ ds w2,
    gather (map (query_provider_batch net msgs) st.2) w1 = (Ok ds, w2) ∧
    w2 = fold_left
           (λ w t, record_requests
                     (map (λ m, provider_request (prov t) m msgs 120%Z) (model_ids_list t)) w)
           st.2 w1 ∧
    query_models_parallel cfg net specs msgs w
    = (Ok (fill_missing specs (merge_results ds st.1)), w2).
Proof.
  intros Hplan Hids.
  destruct (gather_tasks net msgs st.2 w1 Hids) as (ds & Hds & _).
  eexists ds, _. split; [exact Hds|]. split; [done|].
  unfold query_models_parallel. unfold bind at 1. rewrite group_loop.
  unfold bind at 1. rewrite Hplan.
  unfold bind at 1. rewrite run_tasks_or_skip. unfold bind at 1.
  rewrite Hds. reflexivity.
Qed.

Lemma entry_agree cfg net net' specs msgs w s p mid :
  parse_model_spec cfg s = Ok (p, mid) →
  hands_out cfg p
    (λ inst, ∀ n, net' n (provider_request inst (Some mid) msgs 120%Z)
                  = net n (provider_request inst (Some mid) msgs 120%Z)) w →
  ∃ r r' w',
    query_models_parallel cfg net specs msgs w = (Ok r, w') ∧
    query_models_parallel cfg net' specs msgs w = (Ok r', w') ∧
    r' !! s = r !! s.
Proof.
  intros Hparse Hw.
  pose proof (groups_entries cfg specs) as HG.
  assert (id_blind
            (λ inst, ∀ n, net' n (provider_request inst (Some mid) msgs 120%Z)
                          = net n (provider_request inst (Some mid) msgs 120%Z)))
    as Hblind.
  { intros inst j HR n. rewrite provider_request_reidentify. apply HR. }
  destruct (plan_loop cfg p _
              (fold_left (λ g s, groups_append (spec_key cfg s) (spec_entry cfg s) g) specs [])
              (∅, []) w Hblind Hw)
    as (st & w1 & new & Hplan & _ & _ & Htasks & Hnew & _).
  cbn [fst snd app] in Htasks.
  assert (Forall (λ t, model_ids_list t = map snd (specs_list t)) st.2) as Hids.
  { rewrite Htasks. eapply Forall_impl; [exact Hnew|].
    intros t (grp & _ & _ & -> & -> & _). done. }
  destruct (query_models_parallel_stages cfg net specs msgs w st w1 Hplan Hids)
    as (ds & w2 & Hds & Hw2 & Hrun).
  destruct (query_models_parallel_stages cfg net' specs msgs w st w1 Hplan Hids)
    as (ds' & w2' & Hds' & Hw2' & Hrun').
  exists (fill_missing specs (merge_results ds st.1)),
         (fill_missing specs (merge_results ds' st.1)), w2.
  split; [done|]. split; [by rewrite Hw2, <- Hw2'|].
  rewrite !fill_lookup.
  rewrite (merge_agree ds' ds st.1 st.1 s); [done| |done].
  eapply gather_tasks_agree; [exact Hids| |exact Hds'|exact Hds].
  rewrite Htasks. eapply Forall_impl; [exact Hnew|].
  intros t (grp & Hgrp & Hvalid & Hspecs & _ & HR) m n Hin.
  rewrite Hspecs in Hin.
  destruct (group_entry_spec _ _ _ _ _ _ HG Hgrp Hin) as (Hentry & Hkey & _).
  destruct (valid_key_parses _ _ _ _ Hentry Hkey Hvalid) as (mid' & Hp' & ->).
  rewrite Hparse in Hp'. injection Hp' as -> <-. by apply HR.
Qed.

(** C6.  For distinct model ids, [query_models_parallel] of a provider
    returns exactly one entry per model id; and the entry of a model id
    depends on the backend only through the answers to that model id's own
    request, so a backend that differs on the requests of sibling model ids
    (one that fails them, say) leaves it as it is.  The same holds across
    groups in the router: the entry of a specifier is unchanged by a backend
    that differs only on requests other than the one its provider sends for
    its model id. *)
Theorem provider_batch_one_entry_per_model :
  (∀ net self models msgs w,
     NoDup models →
     ∃ results w',
       provider_query_models_parallel net self models msgs w = (Ok results, w') ∧
       dom results = list_to_set models ∧
       size results = length models ∧
       ∀ net' m,
         m ∈ models →
         (∀ n, net' n (provider_request self m msgs 120%Z)
               = net n (provider_request self m msgs 120%Z)) →
         ∃ results',
           provider_query_models_parallel net' self models msgs w = (Ok results', w') ∧
           results' !! m = results !! m)
  ∧
  (∀ cfg net net' specs msgs w s p mid,
     parse_model_spec cfg s = Ok (p, mid) →
     (∀ inst w0, get_provider cfg p w = (Ok inst, w0) →
        ∀ n, net' n (provider_request inst (Some mid) msgs 120%Z)
             = net n (provider_request inst (Some mid) msgs 120%Z)) →
     ∃ r r' w',
       query_models_parallel cfg net specs msgs w = (Ok r, w') ∧
       query_models_parallel cfg net' specs msgs w = (Ok r', w') ∧
       r' !! s = r !! s).
Proof.
  split.
  - intros net self models msgs w Hnodup.
    destruct (provider_batch_total net self models msgs w) as (results & Hrun & Hdom).
    eexists results, _. split; [exact Hrun|]. split; [done|]. split.
    { rewrite <- size_dom, Hdom. by apply size_list_to_set. }
    intros net' m Hm Hnet.
    destruct (provider_batch_total net' self models msgs w) as (results' & Hrun' & _).
    exists results'. split; [done|].
    by eapply (provider_batch_agree (λ m', m' = m) net' net); [intros ? ? ->|..].
  - intros cfg net net' specs msgs w s p mid Hparse Hnet.
    by apply entry_agree with p mid.
Qed.

Lemma provider_batch_one_entry_per_model_witness :
  ∃ results results' w',
    provider_query_models_parallel net_ok (new_OllamaProvider 0 "http://localhost:11434")
      [Some "llama3.1:8b"; Some "mistral:latest"] [] initial_world = (Ok results, w')
    ∧ provider_query_models_parallel net_mistral_down
        (new_OllamaProvider 0 "http://localhost:11434")
        [Some "llama3.1:8b"; Some "mistral:latest"] [] initial_world = (Ok results', w')
    ∧ size results = 2
    ∧ results' !! Some "llama3.1:8b" = results !! Some "llama3.1:8b".
Proof.
  destruct (proj1 provider_batch_one_entry_per_model net_ok
              (new_OllamaProvider 0 "http://localhost:11434")
              [Some "llama3.1:8b"; Some "mistral:latest"] [] initial_world)
    as (results & w' & Hrun & _ & Hsize & Hsibling).
  { repeat constructor; set_solver. }
  destruct (Hsibling net_mistral_down (Some "llama3.1:8b")) as (results' & Hrun' & Hsame).
  { set_solver. }
  { intros n. reflexivity. }
  exists results, results', w'. split_and!; assumption.
Defined.

(** ** A provider that cannot be obtained *)

Lemma destined_key cfg p s :
  p ≠ "_invalid" → destined cfg p s = true ↔ spec_key cfg s = p.
Proof.
  intros Hp. unfold destined, spec_key.
  destruct (parse_model_spec cfg s) as [pm|e].
  - apply String.eqb_eq.
  - split; [done|]. intros <-. done.
Qed.

Lemma groups_append_drop p e (G : Groups) :
  filter (λ grp, grp.1 ≠ p) (groups_append p e G) = filter (λ grp, grp.1 ≠ p) G.
Proof.
  induction G as [|[k es] G IH]; cbn [groups_append].
  - rewrite filter_cons, decide_False by (cbn; tauto). done.
  - destruct (String.eqb p k) eqn:Hk.
    + apply String.eqb_eq in Hk as <-.
      rewrite !filter_cons. cbn [fst]. by rewrite !decide_False by tauto.
    + rewrite !filter_cons. cbn [fst]. rewrite IH. done.
Qed.

Lemma groups_append_keep p k e (G : Groups) :
  k ≠ p →
  filter (λ grp, grp.1 ≠ p) (groups_append k e G)
  = groups_append k e (filter (λ grp, grp.1 ≠ p) G).
Proof.
  intros Hk. induction G as [|[k' es] G IH]; cbn [groups_append].
  - rewrite filter_cons, decide_True by done. done.
  - destruct (String.eqb k k') eqn:Hkk.
    + apply String.eqb_eq in Hkk as <-.
      rewrite !filter_cons. cbn [fst]. rewrite !decide_True by done.
      cbn [groups_append]. by rewrite String.eqb_refl.
    + rewrite !filter_cons. cbn [fst]. rewrite IH.
      destruct (decide (k' ≠ p)); [|done].
      cbn [groups_append]. by rewrite Hkk.
Qed.

Lemma group_fold_filter cfg p specs (G : Groups) :
  fold_left (λ g s, groups_append (spec_key cfg s) (spec_entry cfg s) g)
    (filter (λ s, spec_key cfg s ≠ p) specs) (filter (λ grp, grp.1 ≠ p) G)
  = filter (λ grp, grp.1 ≠ p)
      (fold_left (λ g s, groups_append (spec_key cfg s) (spec_entry cfg s) g) specs G).
Proof.
  revert G. induction specs as [|s specs IH]; intros G; [done|].
  rewrite filter_cons. cbn [fold_left].
  destruct (decide (spec_key cfg s ≠ p)) as [Hk|Hk].
  - cbn [fold_left]. rewrite <- groups_append_keep by done. apply IH.
  - apply dec_stable in Hk. rewrite <- IH. by rewrite Hk, groups_append_drop.
Qed.

Lemma plan_group_eq cfg st grp w :
  plan_group cfg st grp w
  = if String.eqb grp.1 "_invalid" then (Ok (mark_failed grp.2 st.1, st.2), w)
    else match get_provider cfg grp.1 w with
         | (Ok inst, w') =>
             (Ok (st.1, st.2 ++ [{| prov := inst; model_ids_list := map snd grp.2;
                                    specs_list := grp.2 |}]), w')
         | (Raise _, w') => (Ok (mark_failed grp.2 st.1, st.2), w')
         end.
Proof.
  unfold plan_group. destruct (String.eqb grp.1 "_invalid"); [done|].
  unfold bind, try_except, ret.
  destruct (get_provider cfg grp.1 w) as [[inst|e] w'] eqn:Hg; [done|].
  apply get_provider_inv in Hg as [[-> [(msg & ? & _)|(inst & ? & _)]]|(inst & ? & _)];
    by simplify_eq.
Qed.

Lemma mark_failed_eq l (ar : gmap string (option QueryResult)) s :
  mark_failed l ar !! s = if decide (s ∈ l.*1) then Some None else ar !! s.
Proof.
  destruct (decide (s ∈ l.*1)) as [Hin|Hout]; [|by apply mark_failed_other].
  unfold mark_failed. revert ar. induction l as [|e l IH]; intros ar; [set_solver|].
  cbn [fold_left]. destruct (decide (s ∈ l.*1)) as [Hl|Hl]; [by apply IH|].
  fold (mark_failed l (<[e.1 := None]> ar)). rewrite mark_failed_other by done.
  assert (s = e.1) as -> by set_solver. apply lookup_insert_eq.
Qed.

(** Dropping the groups of a provider that cannot be obtained changes
    neither the tasks queued nor the state, and the entries marked failed
    only at specifiers filed under that provider. *)
Lemma plan_loop_filter cfg p (specs : list string) (G : Groups) st st_f w :
  hands_out cfg p (λ _, False) w →
  p ≠ "_invalid" →
  Forall (λ grp : string * list (string * option string),
            Forall (λ e, e = spec_entry cfg e.1 ∧ spec_key cfg e.1 = grp.1 ∧ e.1 ∈ specs)
                   grp.2) G →
  st.2 = st_f.2 →
  (∀ s, spec_key cfg s ≠ p → st.1 !! s = st_f.1 !! s) →
  ∃ st' st_f' w',
    for_each G (plan_group cfg) st w = (Ok st', w') ∧
    for_each (filter (λ grp, grp.1 ≠ p) G) (plan_group cfg) st_f w = (Ok st_f', w') ∧
    st'.2 = st_f'.2 ∧
    (∀ s, spec_key cfg s ≠ p → st'.1 !! s = st_f'.1 !! s).
Proof.
  intros Hblocked Hp HG. revert st st_f w Hblocked.
  assert (id_blind (λ _, False)) as Hblind by (by intros ? ? ?).
  induction HG as [|grp G Hgrp HG IH]; intros st st_f w Hblocked Htasks Hres.
  { exists st, st_f, w. done. }
  rewrite filter_cons. cbn [for_each]. unfold bind at 1. rewrite plan_group_eq.
  assert (∀ s, s ∈ grp.2.*1 → spec_key cfg s = grp.1) as Hkeys.
  { intros s Hs. apply list_elem_of_fmap in Hs as (e & -> & He).
    rewrite Forall_forall in Hgrp. by destruct (Hgrp e He) as (_ & ? & _). }
  destruct (decide (grp.1 ≠ p)) as [Hne|Heq].
  - cbn [for_each]. unfold bind at 1. rewrite plan_group_eq.
    destruct (String.eqb grp.1 "_invalid").
    + apply IH; [done|done|]. intros s Hs. cbn [fst]. rewrite !mark_failed_eq.
      destruct (decide (s ∈ grp.2.*1)); [done|by apply Hres].
    + destruct (get_provider cfg grp.1 w) as [[inst|e] w1] eqn:Hg.
      * apply IH; [by eapply (hands_out_stable _ _ _ _ _ _ _ Hblind)|cbn; by rewrite Htasks|done].
      * apply IH; [by eapply (hands_out_stable _ _ _ _ _ _ _ Hblind)|done|].
        intros s Hs. cbn [fst]. rewrite !mark_failed_eq.
        destruct (decide (s ∈ grp.2.*1)); [done|by apply Hres].
  - apply dec_stable in Heq.
    assert (String.eqb grp.1 "_invalid" = false) as ->
      by (apply String.eqb_neq; congruence).
    destruct (get_provider cfg grp.1 w) as [[inst|e] w1] eqn:Hg.
    { rewrite Heq in Hg. by destruct (Hblocked _ _ Hg). }
    assert (w1 = w) as ->.
    { by apply get_provider_inv in Hg as [[-> _]|(? & ? & _)]. }
    apply IH; [done|done|]. intros s Hs. cbn [fst]. rewrite mark_failed_eq.
    rewrite decide_False; [by apply Hres|]. intros Hin. apply Hs.
    rewrite <- Heq. by apply Hkeys.
Qed.

Lemma Forall2_same_lookup (ds : list (gmap string (option QueryResult))) s :
  Forall2 (λ d d', d !! s = d' !! s) ds ds.
Proof. induction ds; by constructor. Qed.

(** C8.  When [get_provider] raises for a provider name, every input
    specifier destined for that provider comes out as [None]; and the call
    does for the other specifiers exactly what it does when the specifiers
    of the failed provider are taken out of the input: the same entries, the
    same requests, the same final state. *)
Theorem failed_provider_fails_its_group_only (cfg : Config) (net : Backend)
    (specs : list string) (msgs : list Message) (w : World)
    (p : string) (e : exn) (w0 : World) :
  p ∈ ["openrouter"; "ollama"] →
  get_provider cfg p w = (Raise e, w0) →
  ∃ r r_rest w',
    query_models_parallel cfg net specs msgs w = (Ok r, w') ∧
    query_models_parallel cfg net (filter (λ s, destined cfg p s = false) specs) msgs w
      = (Ok r_rest, w') ∧
    (∀ s, s ∈ specs → destined cfg p s = true → r !! s = Some None) ∧
    (∀ s, destined cfg p s = false → r !! s = r_rest !! s).
Proof.
  intros Hvalid Hg.
  assert (p ≠ "_invalid") as Hp.
  { intros ->. apply valid_name_cases in Hvalid as [?|?]; done. }
  assert (hands_out cfg p (λ _, False) w) as Hblocked.
  { intros inst w1 Hok. congruence. }
  assert (filter (λ s, destined cfg p s = false) specs
          = filter (λ s, spec_key cfg s ≠ p) specs) as Hfilter.
  { apply list_filter_iff. intros s. rewrite <- (destined_key cfg p s Hp).
    by destruct (destined cfg p s). }
  rewrite Hfilter.
  pose proof (groups_entries cfg specs) as HG.
  destruct (plan_loop_filter cfg p specs (fold_left (λ g s, groups_append (spec_key cfg s) (spec_entry cfg s) g) specs [])
              (∅, []) (∅, []) w Hblocked Hp HG eq_refl
              ltac:(done))
    as (st & st_f & w1 & Hplan & Hplan_f & Htasks & Hres).
  destruct (plan_loop cfg p (λ _, False) (fold_left (λ g s, groups_append (spec_key cfg s) (spec_entry cfg s) g) specs [])
              (∅, []) w ltac:(by intros ? ? ?) Hblocked)
    as (st0 & w10 & new & Hplan0 & _ & _ & Htasks0 & Hnew & _).
  rewrite Hplan in Hplan0. injection Hplan0 as <- <-. cbn [fst snd app] in Htasks0.
  assert (Forall (λ t, model_ids_list t = map snd (specs_list t)) st.2) as Hids.
  { rewrite Htasks0. eapply Forall_impl; [exact Hnew|].
    intros t (grp & _ & _ & -> & -> & _). done. }
  destruct (query_models_parallel_stages cfg net specs msgs w st w1 Hplan Hids)
    as (ds & w2 & Hds & Hw2 & Hrun).
  rewrite <- (group_fold_filter cfg p specs []) in Hplan_f.
  destruct (query_models_parallel_stages cfg net _ msgs w st_f w1 Hplan_f
              ltac:(by rewrite <- Htasks))
    as (ds_f & w2_f & Hds_f & Hw2_f & Hrun_f).
  rewrite <- Htasks in Hds_f, Hw2_f. rewrite Hds in Hds_f. injection Hds_f as <- <-.
  eexists _, _, w2. split; [exact Hrun|]. split; [exact Hrun_f|]. split.
  - intros s Hs Hdest. eapply entry_is_None; [exact Hrun|done|].
    intros p' mid Hparse inst w3 Hok.
    unfold destined in Hdest. rewrite Hparse in Hdest.
    apply String.eqb_eq in Hdest. cbn in Hdest. subst p'. by destruct (Hblocked _ _ Hok).
  - intros s Hdest.
    assert (spec_key cfg s ≠ p) as Hkey.
    { intros Hk. apply (destined_key cfg p s Hp) in Hk. congruence. }
    rewrite !fill_lookup.
    rewrite (merge_agree ds ds st.1 st_f.1 s (Forall2_same_lookup ds s) (Hres s Hkey)).
    destruct (merge_results ds st_f.1 !! s); [done|].
    destruct (decide (s ∈ specs)) as [Hin|Hout].
    + rewrite decide_True; [done|]. apply list_elem_of_filter. done.
    + rewrite decide_False; [done|]. rewrite list_elem_of_filter. tauto.
Qed.

Lemma failed_provider_fails_its_group_only_witness :
  ∃ r r_rest w',
    query_models_parallel cfg_without_key net_ok
      ["openrouter:openai/gpt-4o"; "llama3.1:8b"] [] initial_world = (Ok r, w')
    ∧ query_models_parallel cfg_without_key net_ok ["llama3.1:8b"] [] initial_world
      = (Ok r_rest, w')
    ∧ r !! "openrouter:openai/gpt-4o" = Some None
    ∧ r !! "llama3.1:8b" = r_rest !! "llama3.1:8b".
Proof.
  destruct (failed_provider_fails_its_group_only cfg_without_key net_ok
              ["openrouter:openai/gpt-4o"; "llama3.1:8b"] [] initial_world
              "openrouter" (ValueError missing_key_message) initial_world)
    as (r & r_rest & w' & Hrun & Hrest & Hnone & Hsame).
  { set_solver. }
  { reflexivity. }
  exists r, r_rest, w'. split; [exact Hrun|]. split; [exact Hrest|]. split.
  - apply Hnone; [set_solver|reflexivity].
  - apply Hsame. reflexivity.
Defined.

(** * Further properties of the code *)

(** ** parse_model_spec, inverted *)

Lemma startswith_slice (s p : string) :
  startswith s p = true → s = p +:+ slice_from (String.length p) s.
Proof.
  intros Hs. destruct (startswith_inv _ _ Hs) as [m ->].
  f_equal. clear Hs. induction p as [|c p IH]; [done|]. by rewrite append_cons.
Qed.

Lemma parse_provider_cases cfg s p m :
  parse_model_spec cfg s = Ok (p, m) →
  p = "ollama" ∨ p = "openrouter" ∨ (p = LLM_PROVIDER cfg ∧ LLM_PROVIDER cfg ≠ "mixed").
Proof.
  unfold parse_model_spec, simple_mode.
  destruct (startswith s "ollama:"); [intros [= <- <-]; auto|].
  destruct (startswith s "openrouter:"); [intros [= <- <-]; auto|].
  destruct (String.eqb (LLM_PROVIDER cfg) "mixed") eqn:Hm; [done|].
  apply String.eqb_neq in Hm. intros [= <- <-]. auto.
Qed.

Lemma parse_raises_mixed cfg s e :
  parse_model_spec cfg s = Raise e → LLM_PROVIDER cfg = "mixed".
Proof.
  unfold parse_model_spec, simple_mode.
  destruct (startswith s "ollama:"); [done|].
  destruct (startswith s "openrouter:"); [done|].
  destruct (String.eqb (LLM_PROVIDER cfg) "mixed") eqn:Hm; [|done].
  by apply String.eqb_eq in Hm.
Qed.

(** X1.  Whatever [parse_model_spec] returns, the specifier is the model id
    it returns with at most one recognised prefix in front: either the
    specifier is ["ollama:" + model] and the provider is ["ollama"], or it
    is ["openrouter:" + model] and the provider is ["openrouter"], or it has
    neither prefix, the model is the specifier itself, the provider is
    [LLM_PROVIDER] and [LLM_PROVIDER] is not ["mixed"]. *)
Theorem parse_result_inversion (cfg : Config) (s p m : string) :
  parse_model_spec cfg s = Ok (p, m) →
  (p = "ollama" ∧ s = "ollama:" +:+ m) ∨
  (p = "openrouter" ∧ s = "openrouter:" +:+ m) ∨
  (p = LLM_PROVIDER cfg ∧ m = s ∧ LLM_PROVIDER cfg ≠ "mixed" ∧
   (∀ m', s ≠ "ollama:" +:+ m') ∧ (∀ m', s ≠ "openrouter:" +:+ m')).
Proof.
  unfold parse_model_spec, simple_mode.
  destruct (startswith s "ollama:") eqn:Ho.
  { intros [= <- <-]. left. split; [done|]. exact (startswith_slice s "ollama:" Ho). }
  destruct (startswith s "openrouter:") eqn:Hr.
  { intros [= <- <-]. right. left. split; [done|].
    exact (startswith_slice s "openrouter:" Hr). }
  destruct (String.eqb (LLM_PROVIDER cfg) "mixed") eqn:Hm; [done|].
  intros [= <- <-]. right. right. apply String.eqb_neq in Hm. split_and!; try done.
  - intros m' ->. by rewrite (startswith_app "ollama:" m') in Ho.
  - intros m' ->. by rewrite (startswith_app "openrouter:" m') in Hr.
Qed.

Lemma parse_result_inversion_witness :
  (("ollama" : string) = "ollama" ∧ ("ollama:llama3.1:8b" : string) = "ollama:" +:+ "llama3.1:8b") ∨
  (("ollama" : string) = "openrouter" ∧ ("ollama:llama3.1:8b" : string) = "openrouter:" +:+ "llama3.1:8b") ∨
  ("ollama" = LLM_PROVIDER cfg_with_key ∧ ("llama3.1:8b" : string) = "ollama:llama3.1:8b" ∧
   LLM_PROVIDER cfg_with_key ≠ "mixed" ∧
   (∀ m', ("ollama:llama3.1:8b" : string) ≠ "ollama:" +:+ m') ∧
   (∀ m', ("ollama:llama3.1:8b" : string) ≠ "openrouter:" +:+ m')).
Proof.
  apply (parse_result_inversion cfg_with_key "ollama:llama3.1:8b" "ollama" "llama3.1:8b").
  reflexivity.
Defined.

(** X2.  [parse_model_spec] raises exactly when [LLM_PROVIDER] is ["mixed"]
    and the specifier has neither recognised prefix, and what it raises is
    the mixed-mode [ValueError] that quotes the specifier. *)
Theorem parse_raises_iff (cfg : Config) (s : string) (e : exn) :
  parse_model_spec cfg s = Raise e ↔
  LLM_PROVIDER cfg = "mixed" ∧
  (∀ m, s ≠ "ollama:" +:+ m) ∧ (∀ m, s ≠ "openrouter:" +:+ m) ∧
  e = ValueError (mixed_mode_message s).
Proof.
  split.
  - intros Hp. pose proof (parse_raises_ValueError _ _ _ Hp) as ->.
    unfold parse_model_spec, simple_mode in Hp.
    destruct (startswith s "ollama:") eqn:Ho; [done|].
    destruct (startswith s "openrouter:") eqn:Hr; [done|].
    destruct (String.eqb (LLM_PROVIDER cfg) "mixed") eqn:Hm; [|done].
    apply String.eqb_eq in Hm. split_and!; try done.
    + intros m' ->. by rewrite (startswith_app "ollama:" m') in Ho.
    + intros m' ->. by rewrite (startswith_app "openrouter:" m') in Hr.
  - intros (Hm & Ho & Hr & ->). rewrite (parse_bare cfg s Ho Hr).
    unfold simple_mode. by rewrite Hm.
Qed.

(** X3.  Writing a parsed pair back in tagged form gives a specifier that
    parses to the same pair under every configuration: when [LLM_PROVIDER]
    is one of the valid values and [parse_model_spec] returns
    [(provider, model)], [provider + ":" + model] parses to
    [(provider, model)] whatever the configuration. *)
Theorem tagged_form_round_trip (cfg cfg' : Config) (s p m : string) :
  LLM_PROVIDER cfg ∈ VALID_PROVIDERS →
  parse_model_spec cfg s = Ok (p, m) →
  parse_model_spec cfg' (p +:+ ":" +:+ m) = Ok (p, m).
Proof.
  intros Hvalid Hp.
  assert (p = "ollama" ∨ p = "openrouter") as [-> | ->].
  { apply parse_provider_cases in Hp as [->|[->|[-> Hm]]]; auto.
    unfold VALID_PROVIDERS in Hvalid. rewrite !elem_of_cons, elem_of_nil in Hvalid.
    destruct Hvalid as [?|[?|[?|[]]]]; auto; done. }
  - exact (parse_ollama cfg' m).
  - exact (parse_openrouter cfg' m).
Qed.

Lemma tagged_form_round_trip_witness :
  parse_model_spec cfg_mixed ("openrouter" +:+ ":" +:+ "openai/gpt-4o")
  = Ok ("openrouter", "openai/gpt-4o").
Proof.
  apply (tagged_form_round_trip cfg_with_key cfg_mixed "openai/gpt-4o").
  - unfold VALID_PROVIDERS. set_solver.
  - reflexivity.
Defined.

Lemma parse_raises_iff_witness :
  parse_model_spec cfg_mixed "llama3.1:8b"
  = Raise (ValueError (mixed_mode_message "llama3.1:8b")).
Proof.
  apply (parse_raises_iff cfg_mixed "llama3.1:8b").
  split_and!; [reflexivity|by intros m|by intros m|reflexivity].
Defined.

(** ** OllamaProvider.__init__ and trailing slashes *)

Lemma rstrip_slash_cons c s :
  rstrip_slash (String c s)
  = match rstrip_slash s with
    | EmptyString => if Ascii.eqb c "/" then EmptyString else String c EmptyString
    | r => String c r
    end.
Proof. reflexivity. Qed.

Lemma rstrip_slash_slashes n : rstrip_slash (slashes n) = "".
Proof.
  induction n as [|n IH]; [done|].
  cbn [slashes]. rewrite rstrip_slash_cons, IH. done.
Qed.

Lemma rstrip_slash_decompose s :
  ∃ n, s = rstrip_slash s +:+ slashes n.
Proof.
  induction s as [|c s [n IH]]; [by exists 0|].
  rewrite rstrip_slash_cons. destruct (rstrip_slash s) as [|d r] eqn:Hr.
  - destruct (Ascii.eqb c "/") eqn:Hc.
    + apply Ascii.eqb_eq in Hc as ->. exists (S n). rewrite IH at 1. done.
    + exists n. rewrite IH at 1. done.
  - exists n. rewrite IH at 1. done.
Qed.

Lemma rstrip_slash_last s : last_char (rstrip_slash s) ≠ Some "/"%char.
Proof.
  induction s as [|c s IH]; [done|].
  rewrite rstrip_slash_cons. destruct (rstrip_slash s) as [|d r] eqn:Hr.
  - destruct (Ascii.eqb c "/") eqn:Hc; [done|].
    apply Ascii.eqb_neq in Hc. cbn. congruence.
  - exact IH.
Qed.

Lemma rstrip_slash_app_slashes s n :
  rstrip_slash (s +:+ slashes n) = rstrip_slash s.
Proof.
  induction s as [|c s IH].
  - rewrite append_nil. apply rstrip_slash_slashes.
  - rewrite append_cons, !rstrip_slash_cons, IH. done.
Qed.

(** X4.  [OllamaProvider(base_url)] removes every trailing slash and nothing
    else: the given URL is the stored [base_url] followed by slashes only,
    the stored [base_url] does not end in a slash, the endpoint is the
    stored [base_url] followed by ["/v1/chat/completions"], and adding
    slashes at the end of the given URL gives the same object. *)
Theorem ollama_init_strips_trailing_slashes (obj_id : nat) (given : string) :
  ∃ base n,
    new_OllamaProvider obj_id given
    = OllamaProvider obj_id base (base +:+ "/v1/chat/completions") ∧
    given = base +:+ slashes n ∧
    last_char base ≠ Some "/"%char ∧
    ∀ k, new_OllamaProvider obj_id (given +:+ slashes k)
         = new_OllamaProvider obj_id given.
Proof.
  destruct (rstrip_slash_decompose given) as [n Hn].
  exists (rstrip_slash given), n. split_and!.
  - done.
  - done.
  - apply rstrip_slash_last.
  - intros k. unfold new_OllamaProvider. by rewrite rstrip_slash_app_slashes.
Qed.

(** ** What one query of a provider returns *)

Lemma has_message_first data :
  has_message data = true ↔ is_Some (first_message data).
Proof.
  unfold has_message, first_message.
  repeat case_match; split; intros H'; try done; try (by destruct H'); eauto.
Qed.

Lemma query_success_value (net : Backend) (self : LLMProvider)
    (model : option string) (msgs : list Message) (t : Z) (w : World)
    (status_code : Z) (data : json) (message : list (string * json)) :
  net (length (requests w)) (provider_request self model msgs t)
    = Response status_code (Some data) →
  (200 ≤ status_code ≤ 299)%Z →
  first_message data = Some message →
  provider_query_model net self model msgs t w
  = (Ok (Some {| content := member_or_null "content" message;
                 reasoning_details :=
                   match self with
                   | OpenRouterProvider _ _ _ => member_or_null "reasoning_details" message
                   | OllamaProvider _ _ _ => JNull
                   end |}),
     record_request (provider_request self model msgs t) w).
Proof.
  intros Hnet [Hlo Hhi] Hmsg.
  apply Z.leb_le in Hlo. apply Z.leb_le in Hhi.
  unfold first_message in Hmsg. repeat case_match; simplify_eq.
  all: unfold_query; rewrite Hnet; cbn [fst snd];
    unfold raise_for_status; rewrite Hlo, Hhi; cbn [andb response_json];
    unfold getitem_str, getitem_0, get_method, member_or_null;
    repeat (match goal with H : members_lookup _ _ = _ |- _ => rewrite H end);
    repeat (case_match; simplify_eq); done.
Qed.

(** X5.  A provider's [query_model], on a response with a success status
    whose JSON payload has a [choices[0].message] object, returns the
    dictionary whose [content] is that object's [content] member ([None]
    when it has none) and whose [reasoning_details] is, for OpenRouter, the
    object's [reasoning_details] member ([None] when it has none) and, for
    Ollama, always [None]. *)
Theorem provider_query_model_success (net : Backend) (self : LLMProvider)
    (model : option string) (msgs : list Message) (t : Z) (w : World)
    (status_code : Z) (data : json) (message : list (string * json)) :
  net (length (requests w)) (provider_request self model msgs t)
    = Response status_code (Some data) →
  (200 ≤ status_code ≤ 299)%Z →
  first_message data = Some message →
  provider_query_model net self model msgs t w
  = (Ok (Some {| content := member_or_null "content" message;
                 reasoning_details :=
                   match self with
                   | OpenRouterProvider _ _ _ => member_or_null "reasoning_details" message
                   | OllamaProvider _ _ _ => JNull
                   end |}),
     record_request (provider_request self model msgs t) w).
Proof.
  intros Hnet Hstatus Hmsg. by apply query_success_value with status_code data.
Qed.

Lemma not_failure_inv (out : HttpOutcome) :
  backend_failure out = false →
  ∃ status_code data message,
    out = Response status_code (Some data) ∧
    (200 ≤ status_code ≤ 299)%Z ∧
    first_message data = Some message.
Proof.
  unfold backend_failure. destruct out as [e|st [data|]]; [done| |done].
  intros Hf. apply orb_false_iff in Hf as [Hst Hmsg].
  apply negb_false_iff, andb_true_iff in Hst as [Hlo Hhi].
  apply Z.leb_le in Hlo. apply Z.leb_le in Hhi.
  apply negb_false_iff, has_message_first in Hmsg as [message Hmsg].
  exists st, data, message. done.
Qed.

(** X6.  A provider's [query_model] returns [None] exactly on a backend
    failure: the transport raising, a status that is not a success, a body
    that is not JSON, or a payload without a [choices[0].message] object. *)
Theorem provider_query_model_None_iff (net : Backend) (self : LLMProvider)
    (model : option string) (msgs : list Message) (t : Z) (w : World) :
  (provider_query_model net self model msgs t w).1 = Ok None ↔
  backend_failure (net (length (requests w)) (provider_request self model msgs t)) = true.
Proof.
  split.
  - intros Hnone.
    destruct (backend_failure _) eqn:Hf; [done|]. exfalso.
    destruct (not_failure_inv _ Hf) as (st & data & message & Hnet & Hst & Hmsg).
    rewrite (query_success_value _ _ _ _ _ _ _ _ _ Hnet Hst Hmsg) in Hnone.
    done.
  - intros Hf. by rewrite provider_query_model_failure.
Qed.

(** X7.  The two provider classes differ only in [reasoning_details]: when
    the backend gives the same answer to their requests, they return [None]
    together and otherwise dictionaries with the same [content]; and a
    dictionary returned by [OllamaProvider] never has
    [reasoning_details]. *)
Theorem providers_agree_on_content (net : Backend)
    (i j : nat) (api_key api_url base_url api_endpoint : string)
    (model : option string) (msgs : list Message) (t : Z) (w : World) :
  let remote := OpenRouterProvider i api_key api_url in
  let local := OllamaProvider j base_url api_endpoint in
  (∀ qr, (provider_query_model net local model msgs t w).1 = Ok (Some qr) →
         reasoning_details qr = JNull) ∧
  (net (length (requests w)) (provider_request remote model msgs t)
   = net (length (requests w)) (provider_request local model msgs t) →
   ∃ r r',
     (provider_query_model net remote model msgs t w).1 = Ok r ∧
     (provider_query_model net local model msgs t w).1 = Ok r' ∧
     content <$> r = content <$> r').
Proof.
  intros remote local.
  destruct (backend_failure
              (net (length (requests w)) (provider_request local model msgs t))) eqn:Hf.
  - split.
    + intros qr. by rewrite provider_query_model_failure.
    + intros Hnet. exists None, None.
      rewrite !provider_query_model_failure; [done|done|by rewrite Hnet].
  - destruct (not_failure_inv _ Hf) as (st & data & message & Hout & Hst & Hmsg).
    split.
    + intros qr.
      rewrite (query_success_value _ _ _ _ _ _ _ _ _ Hout Hst Hmsg).
      by intros [= <-].
    + intros Hnet. rewrite <- Hnet in Hout.
      rewrite (query_success_value _ _ _ _ _ _ _ _ _ Hout Hst Hmsg).
      rewrite Hnet in Hout.
      rewrite (query_success_value _ _ _ _ _ _ _ _ _ Hout Hst Hmsg).
      eauto.
Qed.

Lemma provider_query_model_success_witness :
  provider_query_model net_ok (new_OpenRouterProvider 0 "sk-or-v1-k")
    (Some "openai/gpt-4o") [] 120%Z initial_world
  = (Ok (Some {| content := JStr "hi"; reasoning_details := JNull |}),
     record_request
       (provider_request (new_OpenRouterProvider 0 "sk-or-v1-k")
          (Some "openai/gpt-4o") [] 120%Z) initial_world).
Proof.
  apply (provider_query_model_success net_ok (new_OpenRouterProvider 0 "sk-or-v1-k")
           (Some "openai/gpt-4o") [] 120%Z initial_world 200%Z (completion "hi")
           [("role", JStr "assistant"); ("content", JStr "hi")]).
  - reflexivity.
  - lia.
  - reflexivity.
Defined.

Lemma provider_query_model_None_iff_witness :
  (provider_query_model net_first_refused (new_OllamaProvider 0 "http://localhost:11434")
     (Some "llama3.1:8b") [] 120%Z initial_world).1 = Ok None.
Proof.
  apply (provider_query_model_None_iff net_first_refused). reflexivity.
Defined.

Lemma providers_agree_on_content_witness :
  ∃ r r',
    (provider_query_model net_ok
       (OpenRouterProvider 0 "k" "https://openrouter.ai/api/v1/chat/completions")
       (Some "m") [] 120%Z initial_world).1 = Ok r ∧
    (provider_query_model net_ok
       (OllamaProvider 1 "http://localhost:11434"
          "http://localhost:11434/v1/chat/completions")
       (Some "m") [] 120%Z initial_world).1 = Ok r' ∧
    content <$> r = content <$> r'.
Proof.
  apply (providers_agree_on_content net_ok 0 1 "k"
           "https://openrouter.ai/api/v1/chat/completions"
           "http://localhost:11434" "http://localhost:11434/v1/chat/completions"
           (Some "m") [] 120%Z initial_world).
  reflexivity.
Defined.

(** ** What a batch of a provider sends and keeps *)

Lemma record_requests_fields reqs w :
  requests (record_requests reqs w) = requests w ++ reqs ∧
  _provider_instances (record_requests reqs w) = _provider_instances w ∧
  constructed (record_requests reqs w) = constructed w.
Proof.
  unfold record_requests. revert w. induction reqs as [|req reqs IH]; intros w.
  - cbn. by rewrite app_nil_r.
  - cbn [fold_left]. destruct (IH (record_request req w)) as (-> & -> & ->).
    cbn. by rewrite <- app_assoc.
Qed.

Lemma record_requests_app reqs reqs' w :
  record_requests (reqs ++ reqs') w = record_requests reqs' (record_requests reqs w).
Proof. unfold record_requests. apply fold_left_app. Qed.


Lemma gather_queries_at net self msgs models w rs w' i m :
  gather (map (λ model, provider_query_model net self model msgs 120%Z) models) w
    = (Ok rs, w') →
  models !! i = Some m →
  ∃ v,
    provider_query_model net self m msgs 120%Z
      (record_requests (map (λ m, provider_request self m msgs 120%Z) (take i models)) w)
    = (Ok v,
       record_requests (map (λ m, provider_request self m msgs 120%Z) (take (S i) models)) w)
    ∧ rs !! i = Some v.
Proof.
  revert w rs i. induction models as [|m0 models IH]; intros w rs i Hg Hm; [done|].
  destruct (provider_query_model_total net self m0 msgs 120%Z w) as [v0 Hv0].
  destruct (gather_queries self msgs net models
              (record_request (provider_request self m0 msgs 120%Z) w)) as (rs0 & Hrs0 & _).
  cbn [map gather] in Hg. unfold bind in Hg. rewrite Hv0, Hrs0 in Hg.
  unfold ret in Hg. injection Hg as <- <-.
  destruct i as [|i]; cbn in Hm.
  - injection Hm as <-. exists v0. split; [exact Hv0|done].
  - destruct (IH _ _ i Hrs0 Hm) as (v & Hv & Hi). exists v. split; [exact Hv|done].
Qed.

Lemma dict_zip_last {K V} `{Countable K} (ks : list K) (vs : list V) (d : gmap K V) i k :
  length vs = length ks →
  ks !! i = Some k →
  (∀ j, i < j → ks !! j ≠ Some k) →
  fold_left (λ d kv, <[kv.1 := kv.2]> d) (zip ks vs) d !! k = vs !! i.
Proof.
  revert vs d i. induction ks as [|k0 ks IH]; intros [|v vs] d i Hlen Hi Hlast;
    simplify_eq/=.
  destruct i as [|i]; cbn in Hi |- *.
  - injection Hi as ->.
    assert (k ∉ ks) as Hnotin.
    { intros Hin. apply list_elem_of_lookup in Hin as [j Hj].
      apply (Hlast (S j)); [lia|done]. }
    clear IH Hlast. revert vs Hlen d. induction ks as [|k1 ks IH]; intros [|v1 vs] Hlen d;
      simplify_eq/=; [apply lookup_insert_eq|].
    apply not_elem_of_cons in Hnotin as [Hne Hnotin].
    rewrite insert_insert_ne by done. by apply IH.
  - apply IH; [done|done|]. intros j Hj. apply (Hlast (S j)). lia.
Qed.

(** X9.  When a model id is listed more than once, the entry of the result
    is the response to the last of its requests: for the position of the
    last occurrence of a model id, the entry is what [query_model] returns
    in the state where the requests of the earlier positions have been
    sent. *)
Theorem provider_batch_last_response_wins (net : Backend) (self : LLMProvider)
    (models : list (option string)) (msgs : list Message) (w : World)
    (i : nat) (m : option string) :
  models !! i = Some m →
  (∀ j, i < j → models !! j ≠ Some m) →
  ∃ results w' v w1,
    provider_query_models_parallel net self models msgs w = (Ok results, w') ∧
    provider_query_model net self m msgs 120%Z
      (record_requests (map (λ m, provider_request self m msgs 120%Z) (take i models)) w)
    = (Ok v, w1) ∧
    results !! m = Some v.
Proof.
  intros Hi Hlast.
  destruct (gather_queries self msgs net models w) as (rs & Hrs & Hlen).
  destruct (gather_queries_at _ _ _ _ _ _ _ _ _ Hrs Hi) as (v & Hv & Hrsi).
  eexists (dict_of_pairs (zip models rs)), _, v, _. split; [|split; [exact Hv|]].
  - unfold provider_query_models_parallel, bind. by rewrite Hrs.
  - unfold dict_of_pairs. rewrite (dict_zip_last models rs ∅ i m); done.
Qed.

Lemma provider_batch_last_response_wins_witness :
  ∃ results w' v w1,
    provider_query_models_parallel net_first_refused
      (new_OllamaProvider 0 "http://localhost:11434")
      [Some "llama3.1:8b"; Some "llama3.1:8b"] [] initial_world = (Ok results, w') ∧
    provider_query_model net_first_refused (new_OllamaProvider 0 "http://localhost:11434")
      (Some "llama3.1:8b") [] 120%Z
      (record_requests
         (map (λ m, provider_request (new_OllamaProvider 0 "http://localhost:11434")
                      m [] 120%Z)
              (take 1 [Some "llama3.1:8b"; Some "llama3.1:8b"])) initial_world)
    = (Ok v, w1) ∧
    results !! Some "llama3.1:8b" = Some v.
Proof.
  apply (provider_batch_last_response_wins net_first_refused
           (new_OllamaProvider 0 "http://localhost:11434")
           [Some "llama3.1:8b"; Some "llama3.1:8b"] [] initial_world 1 (Some "llama3.1:8b")).
  - reflexivity.
  - intros [|[|j]] Hj; [lia|lia|done].
Defined.


(** ** When the registry hands out a provider *)

Lemma get_provider_ok_obtainable cfg k w :
  (∃ inst, (get_provider cfg k w).1 = Ok inst) ↔ obtainable cfg w k = true.
Proof.
  unfold obtainable. destruct (get_provider cfg k w) as [r w'] eqn:Hg. cbn [fst].
  apply get_provider_inv in Hg
    as [[_ [(msg & -> & [Hbad|(-> & Hnone & Hkey)])|(inst & -> & Hn & Hc)]]
       |(inst & -> & Hn & Hnone & _ & _ & _ & [(-> & Hkey & _)|(-> & _)])].
  - rewrite (bool_decide_eq_false_2 _ Hbad). split; [by intros [? ?]|done].
  - rewrite Hnone, Hkey. rewrite (bool_decide_eq_false_2 (is_Some None)) by (by intros [? ?]).
    split; [by intros [? ?]|]. by rewrite andb_false_r.
  - rewrite (bool_decide_eq_true_2 _ Hn), Hc.
    rewrite (bool_decide_eq_true_2 (is_Some (Some inst))) by eauto. split; eauto.
  - rewrite (bool_decide_eq_true_2 _ Hn), Hkey. rewrite orb_true_r. split; eauto.
  - rewrite (bool_decide_eq_true_2 _ Hn).
    change (negb ("ollama" =? "openrouter")%string) with true.
    rewrite orb_true_r. split; eauto.
Qed.

(** X10.  [get_provider] succeeds exactly when the name is ["openrouter"]
    or ["ollama"] and the instance is cached or constructible (for
    ["openrouter"], the API key is set); so [get_provider("ollama")] always
    succeeds.  When it raises, it raises a [ValueError] and leaves the
    state as it was. *)
Theorem get_provider_succeeds_iff (cfg : Config) (name : string) (w : World) :
  ((∃ inst, (get_provider cfg name w).1 = Ok inst) ↔ obtainable cfg w name = true) ∧
  (∃ inst, (get_provider cfg "ollama" w).1 = Ok inst) ∧
  (∀ e, (get_provider cfg name w).1 = Raise e →
        (get_provider cfg name w).2 = w ∧ ∃ msg, e = ValueError msg).
Proof.
  split; [apply get_provider_ok_obtainable|]. split.
  - apply get_provider_ok_obtainable. unfold obtainable.
    rewrite bool_decide_eq_true_2 by set_solver.
    change (negb ("ollama" =? "openrouter")%string) with true.
    by rewrite orb_true_r.
  - intros e He. destruct (get_provider cfg name w) as [r w'] eqn:Hg. cbn in He. subst r.
    apply get_provider_inv in Hg as [[-> [(msg & ? & _)|(? & ? & _)]]|(? & ? & _)];
      simplify_eq. eauto.
Qed.

Lemma get_provider_succeeds_iff_witness :
  (get_provider cfg_without_key "openrouter" initial_world).2 = initial_world
  ∧ ∃ msg, ValueError missing_key_message = ValueError msg.
Proof.
  apply (proj2 (proj2 (get_provider_succeeds_iff cfg_without_key "openrouter" initial_world))).
  reflexivity.
Defined.

Lemma get_provider_obtainable cfg k w r w' k' :
  get_provider cfg k w = (r, w') →
  obtainable cfg w' k' = obtainable cfg w k'.
Proof.
  intros Hg. pose proof Hg as Hg0.
  apply get_provider_inv in Hg as [[-> _]|(i & -> & Hn & Hnone & Hreg & _)]; [done|].
  unfold obtainable. rewrite Hreg.
  destruct (decide (k = k')) as [<-|Hne].
  - rewrite lookup_insert_eq, Hnone.
    assert (obtainable cfg w k = true) as Hob.
    { apply get_provider_ok_obtainable. rewrite Hg0. eauto. }
    unfold obtainable in Hob. rewrite Hnone in Hob. rewrite Hob.
    rewrite (bool_decide_eq_true_2 _ Hn). by rewrite bool_decide_eq_true_2 by eauto.
  - by rewrite lookup_insert_ne.
Qed.

(** ** What routing does to the state *)

Lemma plan_loop_preserves (I : World → Prop) cfg (G : Groups) st w st' w' :
  (∀ k w r w', I w → get_provider cfg k w = (r, w') → I w') →
  I w → for_each G (plan_group cfg) st w = (Ok st', w') → I w'.
Proof.
  intros Hstep. revert st w. induction G as [|grp G IH]; intros st w Hw Hrun.
  { cbn in Hrun. unfold ret in Hrun. by injection Hrun as <- <-. }
  cbn [for_each] in Hrun. unfold bind at 1 in Hrun. rewrite plan_group_eq in Hrun.
  destruct (String.eqb grp.1 "_invalid"); [by eapply IH|].
  destruct (get_provider cfg grp.1 w) as [[inst|e] w1] eqn:Hg;
    (eapply IH; [|exact Hrun]); eapply Hstep; eauto.
Qed.

Lemma record_requests_preserves (I : World → Prop) reqs w :
  (∀ req w, I w → I (record_request req w)) → I w → I (record_requests reqs w).
Proof.
  intros Hstep. unfold record_requests. revert w.
  induction reqs as [|req reqs IH]; intros w Hw; [done|]. cbn. apply IH. by apply Hstep.
Qed.

(** A property of the state kept by [get_provider] and by the sending of a
    request is kept by [query_models_parallel]. *)
Lemma query_models_parallel_preserves (I : World → Prop) cfg net specs msgs w r w' :
  (∀ k w r w', I w → get_provider cfg k w = (r, w') → I w') →
  (∀ req w, I w → I (record_request req w)) →
  I w → query_models_parallel cfg net specs msgs w = (Ok r, w') → I w'.
Proof.
  intros Hget Hreq Hw Hrun.
  destruct (plan_loop cfg "" (λ _, True)
              (fold_left (λ g s, groups_append (spec_key cfg s) (spec_entry cfg s) g) specs [])
              (∅, []) w ltac:(done) ltac:(done))
    as (st & w1 & new & Hplan & _ & _ & Htasks & Hnew & _).
  cbn [fst snd app] in Htasks.
  assert (Forall (λ t, model_ids_list t = map snd (specs_list t)) st.2) as Hids.
  { rewrite Htasks. eapply Forall_impl; [exact Hnew|].
    intros t (grp & _ & _ & -> & -> & _). done. }
  destruct (query_models_parallel_stages cfg net specs msgs w st w1 Hplan Hids)
    as (ds & w2 & _ & Hw2 & Hrun').
  rewrite Hrun in Hrun'. injection Hrun' as _ ->. rewrite Hw2.
  pose proof (plan_loop_preserves I cfg _ _ _ _ _ Hget Hw Hplan) as Hw1.
  clear Hplan Hw2 Hids Htasks. revert w1 Hw1.
  induction st.2 as [|t ts IH]; intros w1 Hw1; [done|].
  cbn [fold_left]. apply IH. by apply record_requests_preserves.
Qed.

Lemma get_provider_consistent cfg k w r w' :
  registry_consistent w → get_provider cfg k w = (r, w') → registry_consistent w'.
Proof. intros Hw Hg name. eapply get_provider_constructions; eauto. Qed.

Lemma record_request_consistent req w :
  registry_consistent w → registry_consistent (record_request req w).
Proof. done. Qed.

Lemma query_models_parallel_consistent cfg net specs msgs w r w' :
  registry_consistent w →
  query_models_parallel cfg net specs msgs w = (Ok r, w') →
  registry_consistent w'.
Proof.
  intros Hw Hrun.
  eapply (query_models_parallel_preserves registry_consistent); [| |exact Hw|exact Hrun].
  - intros k w0 r0 w0' H0 Hg. eapply get_provider_consistent; eauto.
  - intros req w0 H0. by apply record_request_consistent.
Qed.

(** X11.  [query_models_parallel] keeps the registry sound and only adds to
    the state: if one object was constructed per cached name and none
    otherwise before the call, so it is after; a provider cached before the
    call is the cached provider after it; and the requests sent before the
    call are a prefix of those sent after. *)
Theorem routing_keeps_the_registry (cfg : Config) (net : Backend)
    (specs : list string) (msgs : list Message) (w : World) :
  ∃ r w',
    query_models_parallel cfg net specs msgs w = (Ok r, w') ∧
    (registry_consistent w → registry_consistent w') ∧
    (∀ name inst, _provider_instances w !! name = Some inst →
                  _provider_instances w' !! name = Some inst) ∧
    (∃ sent, requests w' = requests w ++ sent).
Proof.
  destruct (query_models_parallel_total cfg net specs msgs w) as (r & w' & Hrun & _).
  exists r, w'. split; [exact Hrun|]. split_and!.
  - intros Hw. by eapply query_models_parallel_consistent.
  - intros name inst Hc.
    eapply (query_models_parallel_preserves
              (λ w, _provider_instances w !! name = Some inst)); [| |exact Hc|exact Hrun].
    + intros k w0 r0 w0' H0 Hg. eapply get_provider_keeps; eauto.
    + done.
  - eapply (query_models_parallel_preserves
              (λ w0, ∃ sent, requests w0 = requests w ++ sent)); [| | |exact Hrun].
    + intros k w0 r0 w0' [sent H0] Hg. exists sent.
      by rewrite (get_provider_requests _ _ _ _ _ Hg).
    + intros req w0 [sent H0]. exists (sent ++ [req]). cbn. by rewrite H0, app_assoc.
    + exists []. by rewrite app_nil_r.
Qed.

Lemma routing_keeps_the_registry_witness :
  ∃ r w',
    query_models_parallel cfg_without_key net_ok ["llama3.1:8b"] [] initial_world
    = (Ok r, w') ∧ registry_consistent w'.
Proof.
  destruct (routing_keeps_the_registry cfg_without_key net_ok ["llama3.1:8b"] []
              initial_world) as (r & w' & Hrun & Hcons & _).
  exists r, w'. split; [exact Hrun|]. apply Hcons.
  intros name. cbn. by rewrite lookup_empty.
Defined.

(** X12.  However many batches are routed, from the initial state and
    whatever the backends answer, at most one provider object is ever
    constructed per provider name. *)
Theorem batches_construct_once (cfg : Config)
    (batches : list (Backend * list string * list Message)) (name : string) :
  constructions name (run_batches cfg batches initial_world) ≤ 1.
Proof.
  assert (∀ w, registry_consistent w → registry_consistent (run_batches cfg batches w))
    as Hinv.
  { induction batches as [|[[net specs] msgs] batches IH]; intros w Hw; [done|].
    cbn [run_batches]. apply IH.
    destruct (query_models_parallel_total cfg net specs msgs w) as (r & w' & Hrun & _).
    rewrite Hrun. by eapply query_models_parallel_consistent. }
  rewrite (Hinv initial_world).
  - destruct (_ !! name); lia.
  - intros k. cbn. by rewrite lookup_empty.
Qed.

(** ** A batch of one specifier is a single query *)

Lemma fill_present s (d : gmap string (option QueryResult)) v :
  fill_missing [s] (<[s := v]> d) = <[s := v]> d.
Proof.
  unfold fill_missing. cbn [fold_left]. rewrite lookup_insert_eq.
  by rewrite bool_decide_eq_true_2 by eauto.
Qed.

Lemma singleton_batch_eq cfg net s msgs w :
  query_models_parallel cfg net [s] msgs w
  = (match (query_model cfg net s msgs 120%Z w).1 with
     | Ok v => Ok {[s := v]}
     | Raise e => Raise e
     end, (query_model cfg net s msgs 120%Z w).2).
Proof.
  unfold query_models_parallel. unfold bind at 1. rewrite group_loop.
  cbn [fold_left groups_append]. unfold bind at 1. cbn [for_each].
  unfold bind at 1. rewrite plan_group_eq. cbn [fst snd].
  unfold query_model, try_except, isinstance_Exception, lift.
  unfold spec_key, spec_entry.
  destruct (parse_model_spec cfg s) as [[p m]|e] eqn:Hparse; cbn [fst snd].
  2:{ change ("_invalid" =? "_invalid")%string with true. cbv iota.
      unfold ret, bind, mark_failed. cbn [fold_left fst snd].
      rewrite fill_present. by destruct (isinstance_ValueError e). }
  destruct (String.eqb p "_invalid") eqn:Hinv.
  { apply String.eqb_eq in Hinv as ->.
    unfold bind. cbn [fst snd]. rewrite !get_provider_invalid by set_solver.
    unfold ret, mark_failed. cbn [fold_left fst snd isinstance_ValueError].
    by rewrite fill_present. }
  unfold bind.
  destruct (get_provider cfg p w) as [[inst|e] w1] eqn:Hg.
  2:{ unfold ret, mark_failed. cbn [fold_left fst snd]. rewrite fill_present, ?Hg.
      by destruct (isinstance_ValueError e). }
  destruct (provider_query_model_total net inst (Some m) msgs 120%Z w1) as [v Hv].
  cbn [fst snd]. rewrite ?Hg, ?Hv. unfold ret. cbn [fst snd app map gather].
  unfold query_provider_batch, provider_query_models_parallel.
  cbn [prov model_ids_list specs_list map gather].
  unfold bind, ret. rewrite Hv. cbn [zip for_each].
  unfold dict_of_pairs, bind, lift, ret, dict_getitem. cbn [fold_left fst snd].
  rewrite lookup_insert_eq. cbn [merge_results fold_left].
  rewrite (right_id ∅ (∪)). by rewrite fill_present.
Qed.

(** X13.  Routing the one-element list [[s]] is the single query of [s]
    with the default timeout: [query_models_parallel([s], messages)] returns
    [{s: v}] where [v] is what [query_model(s, messages)] returns, and both
    leave the same state behind. *)
Theorem singleton_batch_is_single_query (cfg : Config) (net : Backend)
    (s : string) (msgs : list Message) (w : World) :
  ∃ v w',
    query_model cfg net s msgs 120%Z w = (Ok v, w') ∧
    query_models_parallel cfg net [s] msgs w = (Ok {[s := v]}, w').
Proof.
  destruct (query_model_total cfg net s msgs 120%Z w) as (v & w' & Hq & _).
  exists v, w'. split; [exact Hq|]. by rewrite singleton_batch_eq, Hq.
Qed.

(** ** How many requests a batch sends *)

Local Abbreviation reaches cfg w k :=
  (negb (String.eqb k "_invalid") && obtainable cfg w k).

Lemma routable_key cfg w s : routable cfg w s = reaches cfg w (spec_key cfg s).
Proof.
  unfold routable, spec_key. destruct (parse_model_spec cfg s) as [pm|e]; [|done].
  destruct (String.eqb pm.1 "_invalid") eqn:Hinv; [|done].
  apply String.eqb_eq in Hinv. unfold obtainable. rewrite Hinv.
  by rewrite bool_decide_eq_false_2 by set_solver.
Qed.

Lemma groups_append_keys (P : string → Prop) k e (G : Groups) :
  P k → Forall (λ grp, P grp.1) G → Forall (λ grp, P grp.1) (groups_append k e G).
Proof.
  intros HP. induction 1 as [|[k' es] G Hk HG IH]; cbn [groups_append].
  - by repeat constructor.
  - destruct (String.eqb k k'); constructor; done.
Qed.

Lemma group_fold_keys (P : string → Prop) cfg specs (G : Groups) :
  (∀ s, s ∈ specs → P (spec_key cfg s)) →
  Forall (λ grp, P grp.1) G →
  Forall (λ grp, P grp.1)
    (fold_left (λ g s, groups_append (spec_key cfg s) (spec_entry cfg s) g) specs G).
Proof.
  revert G. induction specs as [|s specs IH]; intros G HP HG; [done|].
  cbn [fold_left]. apply IH.
  - intros s' Hs'. apply HP. by right.
  - apply groups_append_keys; [|done]. apply HP. by left.
Qed.

Lemma groups_append_size (Q : string → bool) k e (G : Groups) :
  sum_list_with (λ grp, length grp.2) (filter (λ grp, Q grp.1 = true) (groups_append k e G))
  = sum_list_with (λ grp, length grp.2) (filter (λ grp, Q grp.1 = true) G)
    + (if Q k then 1 else 0).
Proof.
  induction G as [|[k' es] G IH]; cbn [groups_append].
  - rewrite filter_cons, filter_nil. cbn [fst]. destruct (Q k) eqn:HQ.
    + by rewrite decide_True by done.
    + rewrite decide_False by congruence. done.
  - destruct (String.eqb k k') eqn:Hk.
    + apply String.eqb_eq in Hk as <-. rewrite !filter_cons. cbn [fst].
      destruct (Q k) eqn:HQ.
      * rewrite !decide_True by done. cbn [sum_list_with snd]. rewrite length_app. cbn. lia.
      * rewrite !decide_False by congruence. lia.
    + rewrite !filter_cons. cbn [fst].
      destruct (decide (Q k' = true)); cbn [sum_list_with]; rewrite IH; lia.
Qed.

Lemma group_fold_size (Q : string → bool) cfg specs (G : Groups) :
  sum_list_with (λ grp, length grp.2)
     (filter (λ grp, Q grp.1 = true)
        (fold_left (λ g s, groups_append (spec_key cfg s) (spec_entry cfg s) g) specs G))
  = sum_list_with (λ grp, length grp.2) (filter (λ grp, Q grp.1 = true) G)
    + length (filter (λ s, Q (spec_key cfg s) = true) specs).
Proof.
  revert G. induction specs as [|s specs IH]; intros G; [cbn; lia|].
  cbn [fold_left]. rewrite IH, groups_append_size, filter_cons.
  destruct (Q (spec_key cfg s)) eqn:HQ.
  - rewrite decide_True by done. cbn [length]. lia.
  - rewrite decide_False by congruence. lia.
Qed.

Lemma plan_loop_size cfg (G : Groups) st w st' w' :
  for_each G (plan_group cfg) st w = (Ok st', w') →
  sum_list_with (λ t, length (model_ids_list t)) st'.2
  = sum_list_with (λ t, length (model_ids_list t)) st.2
    + sum_list_with (λ grp, length grp.2)
        (filter (λ grp, reaches cfg w grp.1 = true) G).
Proof.
  revert st w. induction G as [|grp G IH]; intros st w Hrun.
  { cbn in Hrun. unfold ret in Hrun. injection Hrun as <- <-. cbn. lia. }
  cbn [for_each] in Hrun. unfold bind at 1 in Hrun. rewrite plan_group_eq in Hrun.
  rewrite filter_cons.
  destruct (String.eqb grp.1 "_invalid") eqn:Hinv.
  { rewrite decide_False by (cbn; congruence). by apply IH in Hrun. }
  cbn [negb andb].
  destruct (get_provider cfg grp.1 w) as [[inst|e] w1] eqn:Hg.
  - assert (obtainable cfg w grp.1 = true) as Hob.
    { apply get_provider_ok_obtainable. rewrite Hg. eauto. }
    rewrite decide_True by done. apply IH in Hrun. rewrite Hrun. cbn [fst snd sum_list_with].
    rewrite sum_list_with_app. cbn [sum_list_with model_ids_list].
    rewrite length_map.
    rewrite (list_filter_iff (λ grp0, reaches cfg w1 grp0.1 = true)
               (λ grp0, reaches cfg w grp0.1 = true)).
    + lia.
    + intros grp0. by rewrite (get_provider_obtainable _ _ _ _ _ grp0.1 Hg).
  - assert (obtainable cfg w grp.1 = false) as Hob.
    { destruct (obtainable cfg w grp.1) eqn:Hob; [|done].
      apply get_provider_ok_obtainable in Hob as [inst Hinst]. rewrite Hg in Hinst. done. }
    rewrite decide_False by congruence. apply IH in Hrun. rewrite Hrun. cbn [fst snd].
    rewrite (list_filter_iff (λ grp0, reaches cfg w1 grp0.1 = true)
               (λ grp0, reaches cfg w grp0.1 = true)).
    + lia.
    + intros grp0. by rewrite (get_provider_obtainable _ _ _ _ _ grp0.1 Hg).
Qed.

Lemma tasks_requests_length msgs (tasks : list Task) w :
  length (requests
    (fold_left
       (λ w t, record_requests
                 (map (λ m, provider_request (prov t) m msgs 120%Z) (model_ids_list t)) w)
       tasks w))
  = length (requests w) + sum_list_with (λ t, length (model_ids_list t)) tasks.
Proof.
  revert w. induction tasks as [|t tasks IH]; intros w; [cbn; lia|].
  cbn [fold_left sum_list_with]. rewrite IH.
  destruct (record_requests_fields
              (map (λ m, provider_request (prov t) m msgs 120%Z) (model_ids_list t)) w)
    as (-> & _ & _).
  rewrite length_app, length_map. lia.
Qed.

(** The run of [query_models_parallel] with the state between its second
    loop and its batches. *)
Lemma query_models_parallel_run cfg net specs msgs w :
  ∃ st w1 ds w2,
    for_each
      (fold_left (λ g s, groups_append (spec_key cfg s) (spec_entry cfg s) g) specs [])
      (plan_group cfg) (∅, []) w = (Ok st, w1) ∧
    requests w1 = requests w ∧
    w2 = fold_left
           (λ w t, record_requests
                     (map (λ m, provider_request (prov t) m msgs 120%Z) (model_ids_list t)) w)
           st.2 w1 ∧
    query_models_parallel cfg net specs msgs w
    = (Ok (fill_missing specs (merge_results ds st.1)), w2).
Proof.
  destruct (plan_loop cfg "" (λ _, True)
              (fold_left (λ g s, groups_append (spec_key cfg s) (spec_entry cfg s) g) specs [])
              (∅, []) w ltac:(done) ltac:(done))
    as (st & w1 & new & Hplan & Hreq & _ & Htasks & Hnew & _).
  cbn [fst snd app] in Htasks.
  assert (Forall (λ t, model_ids_list t = map snd (specs_list t)) st.2) as Hids.
  { rewrite Htasks. eapply Forall_impl; [exact Hnew|].
    intros t (grp & _ & _ & -> & -> & _). done. }
  destruct (query_models_parallel_stages cfg net specs msgs w st w1 Hplan Hids)
    as (ds & w2 & _ & Hw2 & Hrun).
  exists st, w1, ds, w2. done.
Qed.

(** X14.  [query_models_parallel] sends exactly one request for each
    specifier of the input, repeated ones included, that parses and whose
    provider can be obtained in the state of the call, and none for the
    others. *)
Theorem one_request_per_routable_specifier (cfg : Config) (net : Backend)
    (specs : list string) (msgs : list Message) (w : World) :
  ∃ r w',
    query_models_parallel cfg net specs msgs w = (Ok r, w') ∧
    length (requests w')
    = length (requests w) + length (filter (λ s, routable cfg w s = true) specs).
Proof.
  destruct (query_models_parallel_run cfg net specs msgs w)
    as (st & w1 & ds & w2 & Hplan & Hreq & Hw2 & Hrun).
  eexists _, w2. split; [exact Hrun|].
  rewrite Hw2, tasks_requests_length, Hreq.
  rewrite (plan_loop_size _ _ _ _ _ _ Hplan). cbn [snd sum_list_with].
  rewrite (group_fold_size (λ k, reaches cfg w k)). cbn [sum_list_with].
  rewrite filter_nil. cbn [sum_list_with].
  rewrite (list_filter_iff (λ s, routable cfg w s = true)
             (λ s, reaches cfg w (spec_key cfg s) = true)).
  - lia.
  - intros s. by rewrite routable_key.
Qed.

(** X15.  When no specifier of the input is routable (none parses, as
    with bare specifiers in mixed mode, or no provider can be obtained),
    [query_models_parallel] maps every specifier to [None] and changes
    nothing: no provider is constructed and no request is sent. *)
Theorem unroutable_batch_has_no_effect (cfg : Config) (net : Backend)
    (specs : list string) (msgs : list Message) (w : World) :
  (∀ s, s ∈ specs → routable cfg w s = false) →
  ∃ r,
    query_models_parallel cfg net specs msgs w = (Ok r, w) ∧
    ∀ s, s ∈ specs → r !! s = Some None.
Proof.
  intros Hnone.
  destruct (query_models_parallel_run cfg net specs msgs w)
    as (st & w1 & ds & w2 & Hplan & Hreq & Hw2 & Hrun).
  pose proof (group_fold_keys (λ k, reaches cfg w k = false) cfg specs []
                ltac:(intros s Hs; cbv beta; rewrite <- routable_key; by apply Hnone)
                ltac:(constructor)) as Hkeys.
  assert (∀ (G : Groups) st0, Forall (λ grp, reaches cfg w grp.1 = false) G →
            ∃ ar, for_each G (plan_group cfg) st0 w = (Ok (ar, st0.2), w)) as Hloop.
  { clear. induction G as [|grp G IH]; intros st0 HG.
    { exists st0.1. by destruct st0. }
    apply Forall_cons in HG as [Hgrp HG].
    cbn [for_each]. unfold bind at 1. rewrite plan_group_eq.
    destruct (String.eqb grp.1 "_invalid") eqn:Hinv.
    { destruct (IH (mark_failed grp.2 st0.1, st0.2) HG) as [ar Har]. eauto. }
    cbn [negb andb] in Hgrp.
    destruct (get_provider cfg grp.1 w) as [[inst|e] w1] eqn:Hg.
    - assert (obtainable cfg w grp.1 = true) as Hob; [|congruence].
      apply get_provider_ok_obtainable. rewrite Hg. eauto.
    - assert (w1 = w) as ->.
      { by apply get_provider_inv in Hg as [[-> _]|(? & ? & _)]. }
      destruct (IH (mark_failed grp.2 st0.1, st0.2) HG) as [ar Har]. eauto. }
  destruct (Hloop _ (∅, []) Hkeys) as [ar Har].
  rewrite Har in Hplan. injection Hplan as <- <-. cbn [snd fold_left] in Hw2. subst w2.
  eexists. split; [exact Hrun|].
  intros s Hs. eapply entry_is_None; [exact Hrun|done|].
  intros p mid Hparse inst w' Hg.
  specialize (Hnone s Hs). unfold routable in Hnone. rewrite Hparse in Hnone.
  cbn [fst] in Hnone.
  assert (obtainable cfg w p = true) as Hob; [|congruence].
  apply get_provider_ok_obtainable. rewrite Hg. eauto.
Qed.

Lemma unroutable_batch_has_no_effect_witness :
  ∃ r,
    query_models_parallel cfg_mixed net_ok ["foo"; "gpt-4o"] [] initial_world
    = (Ok r, initial_world) ∧
    ∀ s, s ∈ ["foo"; "gpt-4o"] → r !! s = Some None.
Proof.
  apply (unroutable_batch_has_no_effect cfg_mixed net_ok ["foo"; "gpt-4o"] [] initial_world).
  intros s Hs. apply elem_of_cons in Hs as [->|Hs]; [reflexivity|].
  apply elem_of_cons in Hs as [->|Hs]; [reflexivity|]. by apply elem_of_nil in Hs.
Defined.

(** ** The configuration the module loads *)

Lemma load_config_inv env cfg :
  load_config env = Ok cfg →
  LLM_PROVIDER cfg = getenv_default env "LLM_PROVIDER" "openrouter" ∧
  OPENROUTER_API_KEY cfg = getenv env "OPENROUTER_API_KEY" ∧
  OLLAMA_BASE_URL cfg = getenv_default env "OLLAMA_BASE_URL" "http://localhost:11434" ∧
  LLM_PROVIDER cfg ∈ VALID_PROVIDERS ∧
  (LLM_PROVIDER cfg = "ollama" ∨ truthy (OPENROUTER_API_KEY cfg) = true).
Proof.
  unfold load_config.
  destruct (bool_decide (getenv_default env "LLM_PROVIDER" "openrouter" ∈ VALID_PROVIDERS))
    eqn:Hvalid; [|done].
  apply bool_decide_eq_true in Hvalid. cbn [negb].
  destruct (bool_decide (getenv_default env "LLM_PROVIDER" "openrouter"
                         ∈ ["openrouter"; "mixed"])) eqn:Hrem.
  - destruct (truthy (getenv env "OPENROUTER_API_KEY")) eqn:Hkey; [|done].
    cbn. intros [= <-]. cbn. split_and!; auto.
  - cbn. intros [= <-]. cbn. split_and!; auto. left.
    apply bool_decide_eq_false in Hrem. unfold VALID_PROVIDERS in Hvalid.
    set_solver.
Qed.

(** X16.  The configuration module imports exactly when [LLM_PROVIDER]
    (["openrouter"] when unset) is one of the three modes and, unless the
    mode is ["ollama"], [OPENROUTER_API_KEY] is set and not empty.  So
    without an API key the import fails in the default mode, and a wrong
    mode is refused whatever the key. *)
Theorem config_loads_iff (env : Environ) :
  let mode := getenv_default env "LLM_PROVIDER" "openrouter" in
  ((∃ cfg, load_config env = Ok cfg) ↔
   mode ∈ VALID_PROVIDERS ∧
   (mode = "ollama" ∨ truthy (getenv env "OPENROUTER_API_KEY") = true)) ∧
  (mode ∉ VALID_PROVIDERS →
   load_config env = Raise (ValueError (invalid_mode_message mode))) ∧
  (env !! "LLM_PROVIDER" = None → truthy (getenv env "OPENROUTER_API_KEY") = false →
   load_config env = Raise (ValueError api_key_not_set_message)).
Proof.
  intros mode. split_and!.
  - split.
    + intros [cfg Hload]. apply load_config_inv in Hload as (Hm & Hk & _ & Hv & Hor).
      fold mode in Hm. rewrite <- Hm, <- Hk. done.
    + intros [Hv Hor]. unfold load_config. fold mode.
      rewrite (bool_decide_eq_true_2 _ Hv). cbn [negb].
      destruct Hor as [Hm|Hk].
      * rewrite Hm. rewrite bool_decide_eq_false_2 by set_solver. cbn. eauto.
      * rewrite Hk. rewrite andb_false_r. eauto.
  - intros Hv. unfold load_config. fold mode. by rewrite (bool_decide_eq_false_2 _ Hv).
  - intros Hunset Hk. unfold load_config, getenv_default. rewrite Hunset.
    rewrite bool_decide_eq_true_2 by (unfold VALID_PROVIDERS; set_solver). cbn [negb].
    rewrite bool_decide_eq_true_2 by set_solver. by rewrite Hk.
Qed.

Lemma config_loads_iff_witness :
  load_config ∅ = Raise (ValueError api_key_not_set_message).
Proof.
  apply (proj2 (proj2 (config_loads_iff ∅))); reflexivity.
Defined.

Lemma loaded_parse_valid env cfg s p m :
  load_config env = Ok cfg →
  parse_model_spec cfg s = Ok (p, m) →
  p ∈ ["openrouter"; "ollama"].
Proof.
  intros Hload Hp. apply load_config_inv in Hload as (_ & _ & _ & Hv & _).
  apply parse_provider_cases in Hp as [->|[->|[-> Hm]]]; [set_solver|set_solver|].
  unfold VALID_PROVIDERS in Hv. set_solver.
Qed.

(** X17.  Under a configuration that loaded, a specifier that parses
    always names one of the two providers; and when the mode is not
    ["ollama"], every such specifier is routable in every state, because
    the API key is known to be set: [get_provider] can then fail for a parsed
    specifier only in ["ollama"] mode.  In ["openrouter"] mode every
    specifier whatsoever is routable. *)
Theorem loaded_config_routes (env : Environ) (cfg : Config) :
  load_config env = Ok cfg →
  (∀ s p m, parse_model_spec cfg s = Ok (p, m) → p = "openrouter" ∨ p = "ollama") ∧
  (LLM_PROVIDER cfg ≠ "ollama" →
   ∀ w s, routable cfg w s = true ↔ ∃ pm, parse_model_spec cfg s = Ok pm) ∧
  (LLM_PROVIDER cfg = "openrouter" → ∀ w s, routable cfg w s = true).
Proof.
  intros Hload.
  pose proof (load_config_inv _ _ Hload) as (_ & _ & _ & Hv & Hor).
  assert (LLM_PROVIDER cfg ≠ "ollama" →
          ∀ w s pm, parse_model_spec cfg s = Ok pm → obtainable cfg w pm.1 = true) as Hob.
  { intros Hmode w s [p m] Hp. destruct Hor as [?|Hk]; [done|].
    unfold obtainable. rewrite Hk, orb_true_r.
    by rewrite (bool_decide_eq_true_2 _ (loaded_parse_valid _ _ _ _ _ Hload Hp)). }
  split_and!.
  - intros s p m Hp. apply valid_name_cases. by eapply loaded_parse_valid.
  - intros Hmode w s. unfold routable. split.
    + destruct (parse_model_spec cfg s); [eauto|done].
    + intros [pm Hp]. rewrite Hp. by eapply Hob.
  - intros Hmode w s. unfold routable.
    destruct (parse_model_spec cfg s) as [pm|e] eqn:Hp.
    + eapply Hob; [by rewrite Hmode|done].
    + apply parse_raises_mixed in Hp. congruence.
Qed.

Lemma loaded_config_routes_witness :
  routable cfg_with_key initial_world "foo:bar" = true.
Proof.
  refine (proj2 (proj2 (loaded_config_routes
                          {[ "OPENROUTER_API_KEY" := "sk-or-v1-k";
                             "OLLAMA_BASE_URL" := "http://localhost:11434" ]}
                          cfg_with_key _)) _ initial_world "foo:bar");
    reflexivity.
Defined.

(** ** The prompt loader *)

Section prompt_loader_properties.
Context (prompt_path : string → string).

Lemma load_prompt_hit fs name (c : gmap string string) t :
  c !! name = Some t → load_prompt prompt_path fs name c = (Loaded t, c).
Proof. intros Hc. unfold load_prompt. by rewrite Hc. Qed.

Lemma load_prompt_inv fs name (c c' : gmap string string) r :
  load_prompt prompt_path fs name c = (r, c') →
  (∃ t, r = Loaded t ∧ c !! name = Some t ∧ c' = c) ∨
  (c !! name = None ∧
   ((∃ t, fs (prompt_path (name +:+ ".md")) = File t ∧ r = Loaded t ∧
          c' = <[name := t]> c) ∨
    (c' = c ∧ ∀ t, r ≠ Loaded t))).
Proof.
  unfold load_prompt. destruct (c !! name) as [t|] eqn:Hc.
  - intros [= <- <-]. left. eauto.
  - destruct (fs (prompt_path (name +:+ ".md"))) as [|e|t] eqn:Hfs; intros [= <- <-];
      right; (split; [done|]); eauto.
Qed.

(** X18.  A template that [load_prompt] has returned is returned by every
    later call for the same name, whatever has become of the file: the
    cache is never refreshed, so an edited or deleted prompt file goes
    unnoticed until the process restarts. *)
Theorem loaded_prompt_is_sticky (fs fs' : FileSystem) (name t : string)
    (c c' : gmap string string) :
  load_prompt prompt_path fs name c = (Loaded t, c') →
  load_prompt prompt_path fs' name c' = (Loaded t, c').
Proof.
  intros Hload. apply load_prompt_hit.
  apply load_prompt_inv in Hload
    as [(t' & [= <-] & Hc & ->)|(_ & [(t' & _ & [= <-] & ->)|(_ & Hbad)])].
  - done.
  - apply lookup_insert_eq.
  - by destruct (Hbad t).
Qed.

(** X19.  A failed [load_prompt] leaves no trace: when the call raises
    (the file is missing or cannot be read) the cache is unchanged and the
    name is still not cached, so a later call made once the file is there
    loads and caches it. *)
Theorem failed_load_is_not_cached (fs fs' : FileSystem) (name text : string)
    (c c' : gmap string string) (r : LoadResult string) :
  load_prompt prompt_path fs name c = (r, c') →
  (∀ t, r ≠ Loaded t) →
  c' = c ∧ c !! name = None ∧
  (fs' (prompt_path (name +:+ ".md")) = File text →
   load_prompt prompt_path fs' name c' = (Loaded text, <[name := text]> c)).
Proof.
  intros Hload Hfail.
  apply load_prompt_inv in Hload
    as [(t & -> & _)|(Hc & [(t & _ & -> & _)|(-> & _)])];
    [by destruct (Hfail t)|by destruct (Hfail t)|].
  split_and!; [done|done|].
  intros Hfile. unfold load_prompt. by rewrite Hc, Hfile.
Qed.

(** X20.  [load_prompt] only ever adds the entry of the name it is called
    with: every entry of the cache is still there with the same text after
    the call, and no name other than the one loaded is added. *)
Theorem load_prompt_only_adds (fs : FileSystem) (name : string)
    (c c' : gmap string string) (r : LoadResult string) :
  load_prompt prompt_path fs name c = (r, c') →
  (∀ k v, c !! k = Some v → c' !! k = Some v) ∧
  (∀ k, k ≠ name → c' !! k = c !! k).
Proof.
  intros Hload.
  apply load_prompt_inv in Hload
    as [(t & _ & _ & ->)|(Hc & [(t & _ & _ & ->)|(-> & _)])]; try done.
  split.
  - intros k v Hk. destruct (decide (name = k)) as [->|Hne]; [congruence|].
    by rewrite lookup_insert_ne.
  - intros k Hne. by rewrite lookup_insert_ne.
Qed.

(** X21.  Importing the loader succeeds exactly when the three prompt
    files [stage2_ranking.md], [stage3_chairman.md] and
    [title_generation.md] are there and readable; the three constants are
    then their texts and the cache holds exactly these three entries. *)
Theorem import_loader_succeeds_iff (fs : FileSystem) (T : Templates)
    (c : gmap string string) :
  import_loader prompt_path fs = (Loaded T, c) ↔
  fs (prompt_path "stage2_ranking.md") = File (STAGE2_RANKING_TEMPLATE T) ∧
  fs (prompt_path "stage3_chairman.md") = File (STAGE3_CHAIRMAN_TEMPLATE T) ∧
  fs (prompt_path "title_generation.md") = File (TITLE_GENERATION_TEMPLATE T) ∧
  c = <["title_generation" := TITLE_GENERATION_TEMPLATE T]>
        (<["stage3_chairman" := STAGE3_CHAIRMAN_TEMPLATE T]>
           (<["stage2_ranking" := STAGE2_RANKING_TEMPLATE T]> ∅)).
Proof.
  unfold import_loader, load_prompt.
  rewrite lookup_empty.
  change ("stage2_ranking" +:+ ".md") with "stage2_ranking.md".
  change ("stage3_chairman" +:+ ".md") with "stage3_chairman.md".
  change ("title_generation" +:+ ".md") with "title_generation.md".
  split.
  - destruct (fs (prompt_path "stage2_ranking.md")) as [|e2|t2]; [done|done|].
    rewrite lookup_insert_ne by done. rewrite lookup_empty.
    destruct (fs (prompt_path "stage3_chairman.md")) as [|e3|t3]; [done|done|].
    rewrite !lookup_insert_ne by done. rewrite lookup_empty.
    destruct (fs (prompt_path "title_generation.md")) as [|e1|t1]; [done|done|].
    intros [= <- <-]. done.
  - intros (-> & H3 & H1 & ->).
    rewrite lookup_insert_ne by done. rewrite lookup_empty, H3.
    rewrite !lookup_insert_ne by done. rewrite lookup_empty, H1.
    by destruct T.
Qed.

(** X22.  The import stops at the first template it cannot load: when
    [stage2_ranking.md] is missing it raises the [FileNotFoundError] that
    names that path, with nothing cached, whatever the other two files
    are. *)
Theorem import_loader_first_missing (fs : FileSystem) :
  fs (prompt_path "stage2_ranking.md") = Absent →
  import_loader prompt_path fs
  = (FileNotFoundError ("Prompt file not found: " +:+ prompt_path "stage2_ranking.md"), ∅).
Proof.
  intros Habsent. unfold import_loader, load_prompt. rewrite lookup_empty.
  change ("stage2_ranking" +:+ ".md") with "stage2_ranking.md". by rewrite Habsent.
Qed.

End prompt_loader_properties.

Lemma loaded_prompt_is_sticky_witness :
  load_prompt sample_prompt_path fs_without_prompts "title_generation"
    (<["title_generation" := "Title: {query}"]> ∅)
  = (Loaded "Title: {query}", <["title_generation" := "Title: {query}"]> ∅).
Proof.
  apply (loaded_prompt_is_sticky sample_prompt_path fs_with_prompts fs_without_prompts
           "title_generation" "Title: {query}" ∅).
  reflexivity.
Defined.

Lemma failed_load_is_not_cached_witness :
  (∅ : gmap string string) = ∅ ∧ (∅ : gmap string string) !! "title_generation" = None ∧
  (fs_with_prompts (sample_prompt_path ("title_generation" +:+ ".md")) = File "Title: {query}" →
   load_prompt sample_prompt_path fs_with_prompts "title_generation" ∅
   = (Loaded "Title: {query}", <["title_generation" := "Title: {query}"]> ∅)).
Proof.
  apply (failed_load_is_not_cached sample_prompt_path fs_without_prompts fs_with_prompts
           "title_generation" "Title: {query}" ∅ ∅
           (FileNotFoundError
              ("Prompt file not found: " +:+ sample_prompt_path "title_generation.md"))).
  - reflexivity.
  - intros t. discriminate.
Defined.

Lemma load_prompt_only_adds_witness :
  (∀ k v, (<["stage2_ranking" := "Rank: {responses}"]> ∅ : gmap string string) !! k = Some v →
          (<["title_generation" := "Title: {query}"]>
             (<["stage2_ranking" := "Rank: {responses}"]> ∅) : gmap string string) !! k
          = Some v) ∧
  (∀ k, k ≠ "title_generation" →
        (<["title_generation" := "Title: {query}"]>
           (<["stage2_ranking" := "Rank: {responses}"]> ∅) : gmap string string) !! k
        = (<["stage2_ranking" := "Rank: {responses}"]> ∅ : gmap string string) !! k).
Proof.
  apply (load_prompt_only_adds sample_prompt_path fs_with_prompts "title_generation"
           (<["stage2_ranking" := "Rank: {responses}"]> ∅)
           (<["title_generation" := "Title: {query}"]>
              (<["stage2_ranking" := "Rank: {responses}"]> ∅))
           (Loaded "Title: {query}")).
  reflexivity.
Defined.

Lemma import_loader_succeeds_iff_witness :
  import_loader sample_prompt_path fs_with_prompts
  = (Loaded {| STAGE2_RANKING_TEMPLATE := "Rank: {responses}";
               STAGE3_CHAIRMAN_TEMPLATE := "Chair: {rankings}";
               TITLE_GENERATION_TEMPLATE := "Title: {query}" |},
     <["title_generation" := "Title: {query}"]>
       (<["stage3_chairman" := "Chair: {rankings}"]>
          (<["stage2_ranking" := "Rank: {responses}"]> ∅))).
Proof.
  apply (import_loader_succeeds_iff sample_prompt_path fs_with_prompts).
  split_and!; reflexivity.
Defined.

Lemma import_loader_first_missing_witness :
  import_loader sample_prompt_path fs_without_prompts
  = (FileNotFoundError
       ("Prompt file not found: " +:+ sample_prompt_path "stage2_ranking.md"), ∅).
Proof.
  apply (import_loader_first_missing sample_prompt_path fs_without_prompts). reflexivity.
Defined.
